(** * gc: commit-message candidates from staged changes

    A shallow embedding of [src/index.ts] and the properties of its
    candidate parser, its shell escaping, its provider dispatch and the
    select / confirm / commit flow of [generateCommitTool.execute]. *)

From Stdlib Require Import List String Ascii NArith Bool Arith Lia.
From Stdlib Require Import DecimalString.
Import ListNotations.

Local Open Scope N_scope.
Local Open Scope list_scope.

(** ** JavaScript strings

    A JavaScript string is a sequence of UTF-16 code units; [split],
    [trim], [replace] and a regular expression without the [u] flag all
    work on code units. *)

Definition code_unit := N.
Definition jsstring := list code_unit.

(** A string literal of the source whose characters are all ASCII. *)
Definition js (s : string) : jsstring :=
  map N_of_ascii (list_ascii_of_string s).

Definition LF : code_unit := 10.
Definition CR : code_unit := 13.
Definition DQUOTE : code_unit := 34.
Definition DOLLAR : code_unit := 36.
Definition PERIOD : code_unit := 46.
Definition BACKSLASH : code_unit := 92.
Definition BACKTICK : code_unit := 96.

(** ECMAScript LineTerminator: LF, CR, LS, PS. *)
Definition is_line_terminator (c : code_unit) : bool :=
  (c =? 10) || (c =? 13) || (c =? 8232) || (c =? 8233).

(** ECMAScript WhiteSpace together with LineTerminator: the characters
    that [String.prototype.trim] strips and that [\s] matches.  TAB, VT,
    FF, SP, NBSP, ZWNBSP and the Unicode space separators. *)
Definition is_space (c : code_unit) : bool :=
  (c =? 9) || (c =? 11) || (c =? 12) || (c =? 32) || (c =? 160)
  || (c =? 5760) || ((8192 <=? c) && (c <=? 8202))
  || (c =? 8239) || (c =? 8287) || (c =? 12288) || (c =? 65279)
  || is_line_terminator c.

(** [\d] without the [u] or [i] flag: the ten ASCII digits. *)
Definition is_digit (c : code_unit) : bool :=
  (48 <=? c) && (c <=? 57).

(** [.] without the [s] flag: any code unit but a line terminator. *)
Definition is_dot (c : code_unit) : bool := negb (is_line_terminator c).

(** Truthiness of a string value: every string but the empty one. *)
Definition truthy (s : jsstring) : bool :=
  match s with [] => false | _ :: _ => true end.

(** [a || b] on strings where [a] may be undefined. *)
Definition or_else (a : option jsstring) (b : jsstring) : jsstring :=
  match a with
  | Some s => if truthy s then s else b
  | None => b
  end.

Fixpoint jseq (a b : jsstring) : bool :=
  match a, b with
  | [], [] => true
  | x :: a', y :: b' => (x =? y) && jseq a' b'
  | _, _ => false
  end.

Fixpoint starts_with (p s : jsstring) : bool :=
  match p, s with
  | [], _ => true
  | x :: p', y :: s' => (x =? y) && starts_with p' s'
  | _ :: _, [] => false
  end.

(** [str.split(sep)] for a separator of one code unit: the pieces between
    the separators, a last piece after the last separator included. *)
Fixpoint split (sep : code_unit) (s : jsstring) : list jsstring :=
  match s with
  | [] => [[]]
  | c :: t =>
      if c =? sep then [] :: split sep t
      else match split sep t with
           | piece :: pieces => (c :: piece) :: pieces
           | [] => [[c]]
           end
  end.

(** [arr.join(sep)], the inverse reading of [split]. *)
Fixpoint join (sep : code_unit) (pieces : list jsstring) : jsstring :=
  match pieces with
  | [] => []
  | [piece] => piece
  | piece :: rest => piece ++ sep :: join sep rest
  end.

Fixpoint trimStart (s : jsstring) : jsstring :=
  match s with
  | c :: t => if is_space c then trimStart t else s
  | [] => []
  end.

Definition trimEnd (s : jsstring) : jsstring := rev (trimStart (rev s)).

Definition trim (s : jsstring) : jsstring := trimEnd (trimStart s).

(** [str.replace(/c/g, by)] for a pattern of one literal code unit and a
    replacement text without [$]. *)
Definition replace_all (c : code_unit) (by_ : jsstring) (s : jsstring)
  : jsstring :=
  flat_map (fun x => if x =? c then by_ else [x]) s.

(** ** The candidate parser *)

Module Regex.

(** The pattern [/^\d+\.\s*(.+)$/], matched from the start of the line
    as a backtracking matcher does, each quantifier greedy. *)

(** [(.+)$]: one or more characters, none a line terminator, up to the
    end of the input; the whole rest is the capture. *)
Definition content_to_end (s : jsstring) : option jsstring :=
  if truthy s && forallb is_dot s then Some s else None.

(** [\s*(.+)$]: the star first takes one more white-space character;
    when the rest of the pattern fails after that, it gives the
    character back and the group starts here. *)
Fixpoint spaces_content (s : jsstring) : option jsstring :=
  match s with
  | c :: t =>
      if is_space c then
        match spaces_content t with
        | Some m => Some m
        | None => content_to_end s
        end
      else content_to_end s
  | [] => content_to_end []
  end.

(** The rest of [\d+] and then [\.]: as a period is no digit, giving a
    digit back never helps, so the digits are taken to their end. *)
Fixpoint digits_period (s : jsstring) : option jsstring :=
  match s with
  | c :: t =>
      if is_digit c then digits_period t
      else if c =? PERIOD then Some t else None
  | [] => None
  end.

(** [line.match(...)]: [None] for [null], otherwise group 1. *)
Definition match_numbered (line : jsstring) : option jsstring :=
  match line with
  | c :: t =>
      if is_digit c then
        match digits_period t with
        | Some rest => spaces_content rest
        | None => None
        end
      else None
  | [] => None
  end.

End Regex.

(** [parseCommitCandidates]: the loop pushes onto [candidates]. *)
Definition parse_step (candidates : list jsstring) (line : jsstring)
  : list jsstring :=
  match Regex.match_numbered line with
  | Some group1 =>
      if truthy group1 then candidates ++ [trim group1] else candidates
  | None => candidates
  end.

Definition parseCommitCandidates (text : jsstring) : list jsstring :=
  let lines := split LF text in
  fold_left parse_step lines [].

(** ** Shell escaping *)

Definition escapeQuotes (str : jsstring) : jsstring :=
  replace_all BACKTICK [BACKSLASH; BACKTICK]
    (replace_all DQUOTE [BACKSLASH; DQUOTE] str).

(** ** The data model *)

Inductive Format := conventional | gitmoji.
Inductive Language := en | zh.

Definition language_name (l : Language) : jsstring :=
  match l with en => js "en" | zh => js "zh" end.

(** The validated input of the tool; [count] is one of the whole numbers
    1 to 10 of the data model. *)
Record GenerationRequest := {
  format : Format;
  count : N;
  language : Language
}.

(** How [execAsync] settles: it resolves with what the command wrote, or
    rejects (non-zero exit, signal, buffer overrun) with an error that
    carries a message and, optionally, what had been written. *)
Inductive exec_outcome :=
| Resolved (stdout stderr : jsstring)
| Rejected (message : jsstring) (stdout stderr : option jsstring).

Module CommandResult.
Record t := mk {
  success : bool;
  output : jsstring;
  error : option jsstring
}.
End CommandResult.

Module ModelConfig.
Record t := mk {
  provider : jsstring;
  model : option jsstring;
  apiKey : jsstring;
  baseURL : option jsstring
}.
End ModelConfig.

Inductive Vendor := OpenAI | Anthropic | Google.

(** What [createOpenAI(settings)(modelId)] and its two siblings build. *)
Module LanguageModel.
Record t := mk {
  vendor : Vendor;
  apiKey : jsstring;
  baseURL : option jsstring;
  modelId : jsstring
}.
End LanguageModel.

(** A thrown [Error], of which the code only reads [message]. *)
Inductive exn := Error (message : jsstring).

Definition exn_message (e : exn) : jsstring :=
  match e with Error m => m end.

Module SelectOption.
Record t := mk { name : jsstring; value : jsstring }.
End SelectOption.

(** The record [execute] returns; an absent key is [None]. *)
Module ToolResult.
Record t := mk {
  success : bool;
  message : option jsstring;
  error : option jsstring;
  cancelled : option bool;
  suggestedMessage : option jsstring
}.
End ToolResult.

(** ** Effects

    Everything [execute] asks of its collaborators: the shell, the
    configuration store, the provider SDKs and the terminal widgets.
    [execAsync] resolves or rejects and [generateText] returns or throws;
    the configuration store and the widgets are taken at their contract,
    they return.  [select] returns the value of the option the operator
    picked. *)

Inductive effect : Type -> Type :=
| ExecAsync (cmd : jsstring) : effect exec_outcome
| GetConfigAsync : effect (option ModelConfig.t)
| CreateModel (m : LanguageModel.t) : effect unit
| GenerateText (m : LanguageModel.t) (prompt : jsstring)
    : effect (exn + jsstring)
| Select (prompt : jsstring) (options : list SelectOption.t)
    : effect jsstring
| Confirm (prompt : jsstring) (default : bool) : effect bool
| Output (text : jsstring) : effect unit
| Report (message : jsstring) (suggestions : option (list jsstring))
    : effect unit
| Spinner (text : jsstring) : effect unit
| SpinSucceed (text : jsstring) : effect unit
| SpinFail (text : jsstring) : effect unit.

(** A program is a tree of effects whose leaves return or throw. *)
Inductive prog (R : Type) : Type :=
| Ret (r : R)
| Throw (e : exn)
| Vis (X : Type) (e : effect X) (k : X -> prog R).

Arguments Ret {R} r.
Arguments Throw {R} e.
Arguments Vis {R X} e k.

Fixpoint bind {A B} (p : prog A) (f : A -> prog B) : prog B :=
  match p with
  | Ret a => f a
  | Throw e => Throw e
  | Vis e k => Vis e (fun x => bind (k x) f)
  end.

(** [try { p } catch (err) { handler(err) }] *)
Fixpoint try_catch {A} (p : prog A) (handler : exn -> prog A) : prog A :=
  match p with
  | Ret a => Ret a
  | Throw e => handler e
  | Vis e k => Vis e (fun x => try_catch (k x) handler)
  end.

Definition perform {X} (e : effect X) : prog X := Vis e (fun x => Ret x).

Declare Scope prog_scope.
Delimit Scope prog_scope with prog.
Notation "x <- p ;; q" := (bind p (fun x => q))
  (at level 61, p at next level, right associativity) : prog_scope.
Notation "p ;; q" := (bind p (fun _ => q))
  (at level 61, right associativity) : prog_scope.
Local Open Scope prog_scope.

(** ** Helper functions of the source *)

(** The two returns of [execCommand]: from the [try] when the command
    resolved, from the [catch] when it was rejected. *)
Definition command_result (settled : exec_outcome) : CommandResult.t :=
  match settled with
  | Resolved stdout stderr =>
      CommandResult.mk true stdout (Some stderr)
  | Rejected message stdout _ =>
      CommandResult.mk false (or_else stdout []) (Some message)
  end.

Definition execCommand (cmd : jsstring) : prog CommandResult.t :=
  settled <- perform (ExecAsync cmd) ;;
  Ret (command_result settled).

(** [`${count}`] for the whole numbers the request carries. *)
Definition number_to_string (n : N) : jsstring :=
  js (NilEmpty.string_of_uint (N.to_uint n)).

Definition buildPrompt (diff : jsstring) (format : Format) (count : N)
    (language : jsstring) : jsstring :=
  let languageInstruction :=
    if jseq language (js "zh")
    then js "Write the description in Chinese (" ++ [20013; 25991] ++ js ")"
    else js "Write the description in English" in
  match format with
  | conventional =>
    js "You are a git commit message generator. Analyze the following git diff and generate "
    ++ number_to_string count
    ++ js " commit message candidates.

## Format: Conventional Commits
Each message MUST follow this format:
<type>(<scope>): <description>

Types:
- feat: New feature
- fix: Bug fix
- docs: Documentation only
- style: Code style (formatting, semicolons, etc.)
- refactor: Code refactoring (no feature change, no bug fix)
- perf: Performance improvement
- test: Adding or modifying tests
- build: Build system or dependencies
- ci: CI/CD configuration
- chore: Other changes (maintenance)

## Rules:
1. Scope is optional but recommended when applicable
2. Description should be concise (50 chars max)
3. Use imperative mood ("
    ++ [34]
    ++ js "add"
    ++ [34]
    ++ js " not "
    ++ [34]
    ++ js "added"
    ++ [34]
    ++ js ")
4. No period at the end
5. "
    ++ languageInstruction
    ++ js "

## Git Diff:
"
    ++ [96; 96; 96]
    ++ js "diff
"
    ++ diff
    ++ js "
"
    ++ [96; 96; 96]
    ++ js "

## Output Format:
Return exactly "
    ++ number_to_string count
    ++ js " commit messages, one per line, numbered like:
1. feat(auth): add user login functionality
2. fix(api): resolve null pointer exception
...

Generate "
    ++ number_to_string count
    ++ js " diverse commit message options:"
  | gitmoji =>
    js "You are a git commit message generator. Analyze the following git diff and generate "
    ++ number_to_string count
    ++ js " commit message candidates.

## Format: Gitmoji
Each message MUST start with a relevant emoji:

Common Gitmojis:
- "
    ++ [10024]
    ++ js " New feature
- "
    ++ [55357; 56347]
    ++ js " Bug fix
- "
    ++ [55357; 56541]
    ++ js " Documentation
- "
    ++ [55357; 56452]
    ++ js " UI/style updates
- "
    ++ [9851; 65039]
    ++ js " Refactor
- "
    ++ [9889; 65039]
    ++ js " Performance
- "
    ++ [9989]
    ++ js " Tests
- "
    ++ [55357; 56615]
    ++ js " Configuration
- "
    ++ [55356; 57303; 65039]
    ++ js " Architecture
- "
    ++ [55357; 56613]
    ++ js " Remove code/files
- "
    ++ [55357; 56960]
    ++ js " Deploy
- "
    ++ [55356; 57256]
    ++ js " Code structure/format
- "
    ++ [55357; 56594]
    ++ js " Security
- "
    ++ [11014; 65039]
    ++ js " Upgrade dependencies
- "
    ++ [11015; 65039]
    ++ js " Downgrade dependencies
- "
    ++ [55357; 56986]
    ++ js " Move/rename files

## Rules:
1. Start with emoji (actual emoji character)
2. Follow with concise description
3. Use imperative mood
4. "
    ++ languageInstruction
    ++ js "

## Git Diff:
"
    ++ [96; 96; 96]
    ++ js "diff
"
    ++ diff
    ++ js "
"
    ++ [96; 96; 96]
    ++ js "

## Output Format:
Return exactly "
    ++ number_to_string count
    ++ js " commit messages, one per line, numbered like:
1. "
    ++ [10024]
    ++ js " add user login functionality
2. "
    ++ [55357; 56347]
    ++ js " fix null pointer exception
...

Generate "
    ++ number_to_string count
    ++ js " diverse commit message options:"
  end.

Definition unsupported_provider (provider : jsstring) : exn :=
  Error (js "Unsupported provider: " ++ provider).

Definition createProviderFromConfig (config : ModelConfig.t)
  : prog LanguageModel.t :=
  let create vendor fallback :=
    let m := LanguageModel.mk vendor
               (ModelConfig.apiKey config) (ModelConfig.baseURL config)
               (or_else (ModelConfig.model config) fallback) in
    perform (CreateModel m) ;; Ret m in
  if jseq (ModelConfig.provider config) (js "openai") then
    create OpenAI (js "gpt-4o-mini")
  else if jseq (ModelConfig.provider config) (js "anthropic") then
    create Anthropic (js "claude-3-5-haiku-20241022")
  else if jseq (ModelConfig.provider config) (js "google") then
    create Google (js "gemini-2.0-flash-exp")
  else
    Throw (unsupported_provider (ModelConfig.provider config)).

(** [await generateText({model, prompt})] and reading [text] off it. *)
Definition generateText (m : LanguageModel.t) (prompt : jsstring)
  : prog jsstring :=
  reply <- perform (GenerateText m prompt) ;;
  match reply with
  | inl err => Throw err
  | inr text => Ret text
  end.

(** ** The tool *)

Definition GIT_CHECK : jsstring := js "git rev-parse --is-inside-work-tree".
Definition GIT_STAT : jsstring := js "git diff --cached --stat".
Definition GIT_DIFF : jsstring := js "git diff --cached".
Definition CANCEL : jsstring := js "__cancel__".

(** [`git commit -m "${escapeQuotes(selected)}"`] *)
Definition commit_command (selected : jsstring) : jsstring :=
  js "git commit -m " ++ [DQUOTE] ++ escapeQuotes selected ++ [DQUOTE].

(** [`git commit -m "${selected}"`], only printed. *)
Definition manual_command (selected : jsstring) : jsstring :=
  js "git commit -m " ++ [DQUOTE] ++ selected ++ [DQUOTE].

Definition candidate_option (msg : jsstring) : SelectOption.t :=
  SelectOption.mk msg msg.

Definition cancel_option : SelectOption.t :=
  SelectOption.mk (js "Cancel") CANCEL.

Definition failed (error : jsstring) : ToolResult.t :=
  ToolResult.mk false None (Some error) None None.

Definition was_cancelled : ToolResult.t :=
  ToolResult.mk false None None (Some true) None.

Definition committed (message : jsstring) : ToolResult.t :=
  ToolResult.mk true (Some message) None None None.

Definition declined (selected : jsstring) : ToolResult.t :=
  ToolResult.mk false None None (Some true) (Some selected).

Definition execute (input : GenerationRequest) : prog ToolResult.t :=
  (* Step 1: Check git repository *)
  gitCheck <- execCommand GIT_CHECK ;;
  if negb (CommandResult.success gitCheck) then
    perform (Report (js "Not a git repository")
               (Some [js "Navigate to a git repository";
                      js "Or run 'git init' to initialize one"])) ;;
    Ret (failed (js "Not a git repository"))
  else
  (* Step 2: Get staged changes *)
  stagedCheck <- execCommand GIT_STAT ;;
  if negb (truthy (trim (CommandResult.output stagedCheck))) then
    perform (Report (js "No staged changes")
               (Some [js "Use 'git add <file>' to stage changes";
                      js "Use 'git add .' to stage all changes"])) ;;
    Ret (failed (js "No staged changes"))
  else
  perform (Output (js "Staged changes:")) ;;
  perform (Output (CommandResult.output stagedCheck)) ;;
  (* Step 3: Get full diff *)
  diffResult <- execCommand GIT_DIFF ;;
  let diff := CommandResult.output diffResult in
  (* Step 4: Get model config *)
  config <- perform GetConfigAsync ;;
  match config with
  | None =>
    perform (Report (js "No LLM model configured")
               (Some [js "Run 'kly models' to configure a model"])) ;;
    Ret (failed (js "No model configured"))
  | Some config =>
  (* Step 5: Generate candidates *)
  perform (Spinner (js "Generating commit messages...")) ;;
  try_catch
    (provider <- createProviderFromConfig config ;;
     text <- generateText provider
               (buildPrompt diff (format input) (count input)
                  (language_name (language input))) ;;
     perform (SpinSucceed (js "Generated commit messages")) ;;
     let candidates := parseCommitCandidates text in
     if (List.length candidates =? 0)%nat then
       perform (Report
                  (js "Failed to parse commit messages from AI response")
                  None) ;;
       Ret (failed (js "Parse error"))
     else
     (* Step 6: Let user select *)
     selected <- perform (Select (js "Select a commit message:")
                            (map candidate_option candidates
                             ++ [cancel_option])) ;;
     if jseq selected CANCEL then
       perform (Output (js "Cancelled")) ;;
       Ret was_cancelled
     else
     (* Step 7: Confirm and commit *)
     shouldCommit <- perform (Confirm (js "Commit with this message?")
                                true) ;;
     if (shouldCommit : bool) then
       commitResult <- execCommand (commit_command selected) ;;
       if CommandResult.success commitResult then
         perform (Output (js "Committed successfully!")) ;;
         Ret (committed selected)
       else
         perform (Report (js "Commit failed")
                    (Some [or_else (CommandResult.error commitResult)
                             (js "Unknown error")])) ;;
         Ret (ToolResult.mk false None (CommandResult.error commitResult)
                None None)
     else
       perform (Output
                  (js "Commit cancelled. You can commit manually with:")) ;;
       perform (Output (manual_command selected)) ;;
       Ret (declined selected))
    (fun e =>
       perform (SpinFail (js "Failed to generate")) ;;
       perform (Report (js "Generation failed: " ++ exn_message e) None) ;;
       Ret (failed (exn_message e)))
  end.

(** ** Runs

    What the collaborators did in one run, in order.  A pick records
    which option the operator chose, the program only sees its value. *)

Inductive obs :=
| Ran (cmd : jsstring) (settled : exec_outcome)
| ConfigRead (config : option ModelConfig.t)
| ModelCreated (m : LanguageModel.t)
| TextRequested (m : LanguageModel.t) (prompt : jsstring)
    (reply : exn + jsstring)
| Picked (prompt : jsstring) (options : list SelectOption.t) (index : nat)
| Answered (prompt : jsstring) (default : bool) (answer : bool)
| Printed (text : jsstring)
| Reported (message : jsstring) (suggestions : option (list jsstring))
| SpinnerStarted (text : jsstring)
| SpinnerSucceeded (text : jsstring)
| SpinnerFailed (text : jsstring).

Definition answers {X} (e : effect X) : X -> obs -> Prop :=
  match e in effect X return X -> obs -> Prop with
  | ExecAsync cmd => fun x o => o = Ran cmd x
  | GetConfigAsync => fun x o => o = ConfigRead x
  | CreateModel m => fun _ o => o = ModelCreated m
  | GenerateText m prompt => fun x o => o = TextRequested m prompt x
  | Select prompt options => fun x o =>
      exists index chosen,
        nth_error options index = Some chosen
        /\ x = SelectOption.value chosen
        /\ o = Picked prompt options index
  | Confirm prompt default => fun x o => o = Answered prompt default x
  | Output text => fun _ o => o = Printed text
  | Report message suggestions => fun _ o => o = Reported message suggestions
  | Spinner text => fun _ o => o = SpinnerStarted text
  | SpinSucceed text => fun _ o => o = SpinnerSucceeded text
  | SpinFail text => fun _ o => o = SpinnerFailed text
  end.

Inductive outcome (R : Type) :=
| Returned (r : R)
| Thrown (e : exn).

Arguments Returned {R} r.
Arguments Thrown {R} e.

(** [run p tr r]: [p] can run to [r] while the collaborators do [tr]. *)
Fixpoint run {R} (p : prog R) (tr : list obs) (r : outcome R) : Prop :=
  match p with
  | Ret x => tr = [] /\ r = Returned x
  | Throw e => tr = [] /\ r = Thrown e
  | Vis e k =>
      exists x o tr', answers e x o /\ tr = o :: tr' /\ run (k x) tr' r
  end.

(** A world that answers every effect, to execute a program in. *)
Record World := {
  shell : jsstring -> exec_outcome;
  configuration : option ModelConfig.t;
  completion : LanguageModel.t -> jsstring -> exn + jsstring;
  operator_pick : list SelectOption.t -> nat;
  operator_answer : jsstring -> bool
}.

Definition respond (w : World) {X} (e : effect X) : option (X * obs) :=
  match e in effect X return option (X * obs) with
  | ExecAsync cmd => Some (shell w cmd, Ran cmd (shell w cmd))
  | GetConfigAsync => Some (configuration w, ConfigRead (configuration w))
  | CreateModel m => Some (tt, ModelCreated m)
  | GenerateText m prompt =>
      Some (completion w m prompt, TextRequested m prompt (completion w m prompt))
  | Select prompt options =>
      match nth_error options (operator_pick w options) with
      | Some chosen =>
          Some (SelectOption.value chosen,
                Picked prompt options (operator_pick w options))
      | None => None
      end
  | Confirm prompt default =>
      Some (operator_answer w prompt,
            Answered prompt default (operator_answer w prompt))
  | Output text => Some (tt, Printed text)
  | Report message suggestions => Some (tt, Reported message suggestions)
  | Spinner text => Some (tt, SpinnerStarted text)
  | SpinSucceed text => Some (tt, SpinnerSucceeded text)
  | SpinFail text => Some (tt, SpinnerFailed text)
  end.

Fixpoint interp {R} (w : World) (p : prog R)
  : option (list obs * outcome R) :=
  match p with
  | Ret x => Some ([], Returned x)
  | Throw e => Some ([], Thrown e)
  | Vis e k =>
      match respond w e with
      | Some (x, o) =>
          match interp w (k x) with
          | Some (tr, r) => Some (o :: tr, r)
          | None => None
          end
      | None => None
      end
  end.

(** Which observations are a model call, a confirmation, a commit. *)
Definition is_model_obs (o : obs) : bool :=
  match o with
  | ModelCreated _ | TextRequested _ _ _ => true
  | _ => false
  end.

Definition is_confirm_obs (o : obs) : bool :=
  match o with Answered _ _ _ => true | _ => false end.

Definition is_commit_obs (o : obs) : bool :=
  match o with
  | Ran cmd _ => starts_with (js "git commit") cmd
  | _ => false
  end.

(** ** What the pattern matches

    The lines [split] cuts a text into, and the lines the pattern of the
    source matches: digits, a period, white space and a content that
    runs to the end of the line and that the pattern's dot accepts, so
    that it holds no line terminator. *)


Definition numbered (line content : jsstring) : Prop :=
  exists digits spaces,
    line = digits ++ PERIOD :: spaces ++ content
    /\ digits <> [] /\ forallb is_digit digits = true
    /\ forallb is_space spaces = true
    /\ content <> [] /\ forallb is_dot content = true.

Inductive candidates_of : list jsstring -> list jsstring -> Prop :=
| candidates_done : candidates_of [] []
| candidates_keep line content rest out :
    numbered line content ->
    candidates_of rest out ->
    candidates_of (line :: rest) (trim content :: out)
| candidates_drop line rest out :
    (forall content, ~ numbered line content) ->
    candidates_of rest out ->
    candidates_of (line :: rest) out.

(** ** The specification's reading of the parser *)







(** ** The specification's reading of the escaping *)

(** What becomes of one character: a double quote or a backtick gets a
    backslash before it, any other character stays as it is. *)
Definition escape_unit (c : code_unit) : jsstring :=
  if (c =? DQUOTE) || (c =? BACKTICK) then [BACKSLASH; c] else [c].

(** ** The shell's reading of a double-quoted word

    [execute] hands [git commit -m "<escaped>"] to [/bin/sh]. *)

(** The characters before which the shell, inside double quotes, takes a
    backslash away. *)
Definition sh_special (c : code_unit) : bool :=
  (c =? DQUOTE) || (c =? BACKTICK) || (c =? BACKSLASH) || (c =? DOLLAR).

(** Reading on from after the opening double quote: the text of the word
    up to the double quote that closes it, and what follows that quote.
    A backslash before one of the four characters goes and the character
    stays; a backslash before a line feed goes with the line feed; a
    backslash before anything else stays; a double quote without a
    backslash closes the word.  There is no reading as plain text, here
    [None], when the word is not closed, or when a dollar sign or a
    backtick stands without a backslash, which the shell expands. *)
Fixpoint sh_dquote (s : jsstring) : option (jsstring * jsstring) :=
  match s with
  | [] => None
  | c :: t =>
      if c =? DQUOTE then Some ([], t)
      else if (c =? DOLLAR) || (c =? BACKTICK) then None
      else if c =? BACKSLASH then
        match t with
        | [] => None
        | d :: t' =>
            match sh_dquote t' with
            | Some (text, rest) =>
                if sh_special d then Some (d :: text, rest)
                else if d =? LF then Some (text, rest)
                else Some (c :: d :: text, rest)
            | None => None
            end
        end
      else
        match sh_dquote t with
        | Some (text, rest) => Some (c :: text, rest)
        | None => None
        end
  end.

(** The argument the shell passes on for ["<escaped>"] at the end of the
    command: the word has to close at the double quote that [execute]
    wrote, with nothing left over. *)
Definition sh_word (escaped : jsstring) : option jsstring :=
  match sh_dquote (escaped ++ [DQUOTE]) with
  | Some (text, []) => Some text
  | _ => None
  end.

(** The message holds no dollar sign, and each of its backslashes has a
    character after it that is none of double quote, backtick,
    backslash, dollar sign and line feed. *)
Fixpoint shell_safe (m : jsstring) : bool :=
  match m with
  | c :: t =>
      negb (c =? DOLLAR)
      && (negb (c =? BACKSLASH)
          || match t with
             | d :: _ => negb (sh_special d || (d =? LF))
             | [] => false
             end)
      && shell_safe t
  | [] => true
  end.

(** ** The specification's reading of the provider dispatch *)

(** The known set of providers, by the name the configuration uses. *)
Definition vendor_name (v : Vendor) : jsstring :=
  match v with
  | OpenAI => js "openai"
  | Anthropic => js "anthropic"
  | Google => js "google"
  end.

Definition supported (provider : jsstring) : Prop :=
  exists v, provider = vendor_name v.

(** The default model name of each provider. *)
Definition default_model (v : Vendor) : jsstring :=
  match v with
  | OpenAI => js "gpt-4o-mini"
  | Anthropic => js "claude-3-5-haiku-20241022"
  | Google => js "gemini-2.0-flash-exp"
  end.

(** The client built for a configuration of provider [v]. *)
Definition built_model (config : ModelConfig.t) (v : Vendor)
  : LanguageModel.t :=
  LanguageModel.mk v (ModelConfig.apiKey config) (ModelConfig.baseURL config)
    (or_else (ModelConfig.model config) (default_model v)).

(** A configuration that names a provider and holds an empty model name. *)
Definition empty_model_config : ModelConfig.t :=
  ModelConfig.mk (js "openai") (Some []) (js "sk-test") None.

(** ** Worlds to run the tool in *)

Definition request0 : GenerationRequest :=
  {| format := conventional; count := 3; language := en |}.

Definition openai_config : ModelConfig.t :=
  ModelConfig.mk (js "openai") None (js "sk-test") None.

(** A repository with a configured model: what the staged summary
    settles to, what the provider replies, which option the operator
    picks and what the operator answers are the world's to choose. *)
Definition world (summary : exec_outcome) (reply : jsstring) (pick : nat)
    (answer : bool) : World :=
  {| shell := fun cmd =>
       if jseq cmd GIT_CHECK then Resolved (js "true") []
       else if jseq cmd GIT_STAT then summary
       else if jseq cmd GIT_DIFF then Resolved (js "+hello") []
       else Resolved [] [];
     configuration := Some openai_config;
     completion := fun _ _ => inr reply;
     operator_pick := fun _ => pick;
     operator_answer := fun _ => answer |}.

Definition trace_in (w : World) (input : GenerationRequest) : list obs :=
  match interp w (execute input) with
  | Some (tr, _) => tr
  | None => []
  end.

Definition result_in (w : World) (input : GenerationRequest)
  : option (outcome ToolResult.t) :=
  match interp w (execute input) with
  | Some (_, r) => Some r
  | None => None
  end.

Definition one_file : exec_outcome :=
  Resolved (js " a.txt | 1 +") [].

Definition two_messages : jsstring := js "1. feat: a
2. fix: b".

(** Nothing staged: the summary is a blank line. *)
Definition nothing_staged_world : World :=
  world (Resolved [32; LF] []) two_messages 0 true.

Definition nothing_staged_trace : list obs :=
  Eval vm_compute in trace_in nothing_staged_world request0.

(** The summary command fails and has written nothing. *)
Definition summary_fails_world : World :=
  world (Rejected (js "Command failed: git diff --cached --stat")
           (Some []) (Some (js "fatal: index file corrupt")))
    two_messages 0 true.



(** The operator picks the second message and answers no. *)
Definition decline_world : World := world one_file two_messages 1 false.

Definition decline_trace : list obs :=
  Eval vm_compute in trace_in decline_world request0.



(** ** Further readings of the parser and of the escaping *)

(** A line as the prompt asks for it: a number, a period, a space and the
    message. *)
Definition numbered_entry (entry : jsstring * jsstring) : jsstring :=
  fst entry ++ PERIOD :: 32 :: snd entry.

(** A number is one or more digits; a message fit to be a candidate is
    not empty, holds no line terminator and has no white space at either
    end. *)
Definition well_formed_entry (entry : jsstring * jsstring) : Prop :=
  fst entry <> [] /\ forallb is_digit (fst entry) = true
  /\ snd entry <> [] /\ forallb is_dot (snd entry) = true
  /\ trim (snd entry) = snd entry.

(** The characters [escapeQuotes] puts a backslash before. *)
Definition needs_escape (c : code_unit) : bool :=
  (c =? DQUOTE) || (c =? BACKTICK).

(** Reading an escaped message back: a backslash right before a double
    quote or a backtick is one that [escapeQuotes] put there. *)
Fixpoint drop_escapes (s : jsstring) : jsstring :=
  match s with
  | [] => []
  | c :: t =>
      match t with
      | d :: _ =>
          if (c =? BACKSLASH) && needs_escape d then drop_escapes t
          else c :: drop_escapes t
      | [] => [c]
      end
  end.

(** ** Further readings of the flow *)

Definition is_pick_obs (o : obs) : bool :=
  match o with Picked _ _ _ => true | _ => false end.

Definition is_request_obs (o : obs) : bool :=
  match o with TextRequested _ _ _ => true | _ => false end.

Definition is_spinner_start (o : obs) : bool :=
  match o with SpinnerStarted _ => true | _ => false end.

Definition is_spinner_end (o : obs) : bool :=
  match o with
  | SpinnerSucceeded _ | SpinnerFailed _ => true
  | _ => false
  end.

(** The three shapes of a result record: committed, failed, cancelled. *)
Definition well_shaped (res : ToolResult.t) : Prop :=
  (ToolResult.success res = true
   /\ ToolResult.message res <> None /\ ToolResult.error res = None
   /\ ToolResult.cancelled res = None
   /\ ToolResult.suggestedMessage res = None)
  \/ (ToolResult.success res = false
      /\ ToolResult.message res = None /\ ToolResult.error res <> None
      /\ ToolResult.cancelled res = None
      /\ ToolResult.suggestedMessage res = None)
  \/ (ToolResult.success res = false
      /\ ToolResult.message res = None /\ ToolResult.error res = None
      /\ ToolResult.cancelled res = Some true).

(** ** Further worlds *)

Definition world_of (check summary commit : exec_outcome)
    (config : option ModelConfig.t) (reply : exn + jsstring)
    (pick : nat) (answer : bool) : World :=
  {| shell := fun cmd =>
       if jseq cmd GIT_CHECK then check
       else if jseq cmd GIT_STAT then summary
       else if jseq cmd GIT_DIFF then Resolved (js "+hello") []
       else commit;
     configuration := config;
     completion := fun _ _ => reply;
     operator_pick := fun _ => pick;
     operator_answer := fun _ => answer |}.

Definition in_repo : exec_outcome := Resolved (js "true") [].
Definition commit_done : exec_outcome := Resolved (js "[main 1a2b3c4] feat: a") [].
Definition hook_failed : exec_outcome :=
  Rejected (js "Command failed: git commit") (Some []) (Some (js "hook")).

(** The operator picks the first message and says yes; the commit goes
    through. *)
Definition commit_world : World :=
  world_of in_repo one_file commit_done (Some openai_config)
    (inr two_messages) 0 true.

Definition commit_trace : list obs :=
  Eval vm_compute in trace_in commit_world request0.

(** The same, but the commit command fails. *)
Definition commit_fails_world : World :=
  world_of in_repo one_file hook_failed (Some openai_config)
    (inr two_messages) 0 true.

Definition commit_fails_trace : list obs :=
  Eval vm_compute in trace_in commit_fails_world request0.

(** The provider answers with an error. *)
Definition generation_fails_world : World :=
  world_of in_repo one_file commit_done (Some openai_config)
    (inl (Error (js "429 Too Many Requests"))) 0 true.

Definition generation_fails_trace : list obs :=
  Eval vm_compute in trace_in generation_fails_world request0.

(** The configuration names a provider the tool does not know. *)
Definition mistral_config : ModelConfig.t :=
  ModelConfig.mk (js "mistral") None (js "sk-test") None.

Definition unsupported_world : World :=
  world_of in_repo one_file commit_done (Some mistral_config)
    (inr two_messages) 0 true.

Definition unsupported_trace : list obs :=
  Eval vm_compute in trace_in unsupported_world request0.

(** The provider answers with prose only. *)
Definition prose_world : World :=
  world_of in_repo one_file commit_done (Some openai_config)
    (inr (js "Sure, here are some ideas.")) 0 true.

Definition prose_trace : list obs :=
  Eval vm_compute in trace_in prose_world request0.

(** Outside a repository. *)
Definition not_repo : exec_outcome :=
  Rejected (js "Command failed: git rev-parse --is-inside-work-tree")
    (Some []) (Some (js "fatal: not a git repository")).

Definition not_repo_world : World :=
  world_of not_repo one_file commit_done (Some openai_config)
    (inr two_messages) 0 true.

Definition not_repo_trace : list obs :=
  Eval vm_compute in trace_in not_repo_world request0.

(** No model has been configured. *)
Definition no_config_world : World :=
  world_of in_repo one_file commit_done None (inr two_messages) 0 true.

Definition no_config_trace : list obs :=
  Eval vm_compute in trace_in no_config_world request0.

(** The summary command is cut short after it has written a line, and no
    model is configured. *)
Definition truncated_summary : exec_outcome :=
  Rejected (js "stdout maxBuffer length exceeded")
    (Some (js " a.txt | 1 +")) None.

Definition truncated_summary_world : World :=
  world_of in_repo truncated_summary commit_done None (inr two_messages)
    0 true.

Definition truncated_summary_trace : list obs :=
  Eval vm_compute in trace_in truncated_summary_world request0.

(** ** Facts about strings *)

Lemma jseq_eq (a b : jsstring) : jseq a b = true <-> a = b.
Proof.
  revert b; induction a as [|x a IH]; intros [|y b]; simpl;
    try (split; [discriminate | congruence]); try tauto.
  rewrite andb_true_iff, N.eqb_eq, IH.
  split; [intros [-> ->]; reflexivity | intros H; injection H; auto].
Qed.

Lemma jseq_refl (a : jsstring) : jseq a a = true.
Proof. apply jseq_eq; reflexivity. Qed.

Lemma split_nonempty sep s : split sep s <> [].
Proof.
  destruct s as [|c t]; simpl; [discriminate|].
  destruct (c =? sep); [discriminate|].
  destruct (split sep t); discriminate.
Qed.

Lemma join_cons sep piece rest :
  rest <> [] -> join sep (piece :: rest) = piece ++ sep :: join sep rest.
Proof. destruct rest; [congruence | reflexivity]. Qed.



Lemma split_piece sep piece :
  ~ In sep piece -> split sep piece = [piece].
Proof.
  induction piece as [|c t IH]; intros H; [reflexivity|].
  simpl in *. destruct (c =? sep) eqn:E.
  - apply N.eqb_eq in E. intuition congruence.
  - rewrite IH by tauto. reflexivity.
Qed.

Lemma split_app_sep sep piece s :
  ~ In sep piece -> split sep (piece ++ sep :: s) = piece :: split sep s.
Proof.
  induction piece as [|c t IH]; intros H; simpl.
  - now rewrite N.eqb_refl.
  - simpl in H. destruct (c =? sep) eqn:E.
    + apply N.eqb_eq in E. intuition congruence.
    + rewrite IH by tauto. reflexivity.
Qed.

Lemma split_join sep pieces :
  pieces <> [] -> Forall (fun piece => ~ In sep piece) pieces ->
  split sep (join sep pieces) = pieces.
Proof.
  induction pieces as [|piece rest IH]; intros Hne Hall; [congruence|].
  inversion Hall as [|? ? Hp Hrest]; subst.
  destruct rest as [|next rest].
  - simpl. now apply split_piece.
  - rewrite join_cons by discriminate.
    rewrite split_app_sep by assumption.
    rewrite IH; [reflexivity | discriminate | assumption].
Qed.


Lemma trimStart_spaces w s :
  forallb is_space w = true -> trimStart (w ++ s) = trimStart s.
Proof.
  induction w as [|c w IH]; simpl; [reflexivity|].
  intros H. apply andb_true_iff in H as [Hc Hw].
  rewrite Hc. auto.
Qed.

Lemma trim_spaces w s :
  forallb is_space w = true -> trim (w ++ s) = trim s.
Proof. intros H. unfold trim. now rewrite trimStart_spaces. Qed.

Lemma trimStart_idem s : trimStart (trimStart s) = trimStart s.
Proof.
  induction s as [|c t IH]; simpl; [reflexivity|].
  destruct (is_space c) eqn:E; [exact IH|].
  simpl. now rewrite E.
Qed.

Lemma trimStart_suffix s :
  exists w, s = w ++ trimStart s /\ forallb is_space w = true.
Proof.
  induction s as [|c t (w & Hw & Hs)]; simpl.
  - exists []. auto.
  - destruct (is_space c) eqn:E.
    + exists (c :: w). simpl. rewrite E, Hs. split; [congruence | reflexivity].
    + exists []. auto.
Qed.

Lemma trimStart_head s :
  match trimStart s with
  | c :: _ => is_space c = false
  | [] => True
  end.
Proof.
  induction s as [|c t IH]; simpl; [exact I|].
  destruct (is_space c) eqn:E; [exact IH | exact E].
Qed.

Lemma trimStart_fixed c t :
  is_space c = false -> trimStart (c :: t) = c :: t.
Proof. intros H. simpl. now rewrite H. Qed.

(** Stripping the end of a string that starts with a character that is
    no white space keeps that start. *)
Lemma trimEnd_keeps_head c t :
  is_space c = false -> exists t', trimEnd (c :: t) = c :: t'.
Proof.
  intros Hc. unfold trimEnd.
  destruct (trimStart_suffix (rev (c :: t))) as (w & Hw & Hs).
  simpl rev in *.
  assert (Hne : trimStart (rev t ++ [c]) <> []).
  { intros E. rewrite E, app_nil_r in Hw.
    rewrite <- Hw, forallb_app in Hs. simpl in Hs.
    rewrite Hc in Hs. rewrite andb_false_r in Hs. discriminate. }
  assert (Hlast : exists u, trimStart (rev t ++ [c]) = u ++ [c]).
  { destruct (exists_last Hne) as (u & x & Hu).
    rewrite Hu in Hw. rewrite app_assoc in Hw.
    apply app_inj_tail in Hw as [_ <-]. now exists u. }
  destruct Hlast as (u & ->). rewrite rev_app_distr. simpl. eauto.
Qed.

Lemma trim_idempotent s : trim (trim s) = trim s.
Proof.
  unfold trim at 2 3.
  pose proof (trimStart_head s) as Hh.
  destruct (trimStart s) as [|c t] eqn:E; [reflexivity|].
  destruct (trimEnd_keeps_head c t Hh) as (t' & Ht').
  unfold trim. rewrite Ht', (trimStart_fixed c t' Hh), <- Ht'.
  unfold trimEnd. rewrite rev_involutive, trimStart_idem. reflexivity.
Qed.

(** ** Facts about the pattern *)

Lemma content_to_end_some s g :
  Regex.content_to_end s = Some g <->
  g = s /\ s <> [] /\ forallb is_dot s = true.
Proof.
  unfold Regex.content_to_end. destruct s as [|c t]; simpl.
  - split; [discriminate | intros (_ & H & _); congruence].
  - destruct (is_dot c && forallb is_dot t).
    + split; [intros [= <-] | intros (-> & _)]; auto.
      repeat split; discriminate.
    + split; [discriminate | intros (_ & _ & H); discriminate].
Qed.

Lemma spaces_content_inv s g :
  Regex.spaces_content s = Some g ->
  exists w, s = w ++ g /\ forallb is_space w = true
            /\ g <> [] /\ forallb is_dot g = true.
Proof.
  revert g. induction s as [|c t IH]; intros g; simpl.
  - intros H. apply content_to_end_some in H as (_ & H & _). congruence.
  - assert (Hhere : Regex.content_to_end (c :: t) = Some g ->
                    exists w, c :: t = w ++ g /\ forallb is_space w = true
                              /\ g <> [] /\ forallb is_dot g = true).
    { intros H. apply content_to_end_some in H as (-> & Hne & Hd).
      exists []. auto. }
    destruct (is_space c) eqn:Ec; [|exact Hhere].
    destruct (Regex.spaces_content t) as [m|]; [|exact Hhere].
    intros [= <-]. destruct (IH m eq_refl) as (w & -> & Hw & Hm).
    exists (c :: w). simpl. rewrite Ec, Hw. auto.
Qed.

Lemma spaces_content_complete w c :
  forallb is_space w = true -> c <> [] -> forallb is_dot c = true ->
  exists g, Regex.spaces_content (w ++ c) = Some g.
Proof.
  intros Hw Hne Hd.
  assert (Hc : Regex.content_to_end c = Some c)
    by (apply content_to_end_some; auto).
  induction w as [|a w IH]; simpl.
  - destruct c as [|x t]; [congruence|]. simpl.
    destruct (is_space x); [|eauto].
    destruct (Regex.spaces_content t); eauto.
  - simpl in Hw. apply andb_true_iff in Hw as [Ha Hw].
    rewrite Ha. destruct (IH Hw) as (g & ->). eauto.
Qed.

Lemma digits_period_app ds rest :
  forallb is_digit ds = true ->
  Regex.digits_period (ds ++ PERIOD :: rest) = Some rest.
Proof.
  induction ds as [|d ds IH]; simpl; [reflexivity|].
  intros H. apply andb_true_iff in H as [Hd Hds].
  rewrite Hd. auto.
Qed.

Lemma digits_period_inv s rest :
  Regex.digits_period s = Some rest ->
  exists ds, s = ds ++ PERIOD :: rest /\ forallb is_digit ds = true.
Proof.
  induction s as [|c t IH]; simpl; [discriminate|].
  destruct (is_digit c) eqn:Ed.
  - intros H. destruct (IH H) as (ds & -> & Hds).
    exists (c :: ds). simpl. rewrite Ed, Hds. auto.
  - destruct (c =? PERIOD) eqn:Ep; [|discriminate].
    apply N.eqb_eq in Ep. intros [= ->]. exists []. subst. auto.
Qed.

Lemma match_numbered_sound line g :
  Regex.match_numbered line = Some g -> numbered line g.
Proof.
  unfold Regex.match_numbered. destruct line as [|c t]; [discriminate|].
  destruct (is_digit c) eqn:Ed; [|discriminate].
  destruct (Regex.digits_period t) as [rest|] eqn:Er; [|discriminate].
  intros Hs.
  apply digits_period_inv in Er as (ds & -> & Hds).
  apply spaces_content_inv in Hs as (w & -> & Hw & Hne & Hd).
  exists (c :: ds), w. simpl. rewrite Ed, Hds.
  repeat split; auto. discriminate.
Qed.

Lemma match_numbered_complete line content :
  numbered line content ->
  exists g, Regex.match_numbered line = Some g
            /\ truthy g = true /\ trim g = trim content.
Proof.
  intros (ds & ws & -> & Hne & Hds & Hws & Hc & Hd).
  destruct ds as [|d ds]; [congruence|].
  simpl in Hds. apply andb_true_iff in Hds as [Hd0 Hds].
  simpl. rewrite Hd0, (digits_period_app ds _ Hds).
  destruct (spaces_content_complete ws content Hws Hc Hd) as (g & Hg).
  exists g. split; [exact Hg|].
  apply spaces_content_inv in Hg as (w & Heq & Hw & Hgne & _).
  split; [destruct g; [congruence | reflexivity]|].
  rewrite <- (trim_spaces w g Hw), <- Heq. now apply trim_spaces.
Qed.

Lemma match_numbered_none line :
  Regex.match_numbered line = None -> forall content, ~ numbered line content.
Proof.
  intros Hn content H.
  apply match_numbered_complete in H as (g & Hg & _). congruence.
Qed.

Lemma match_numbered_truthy line g :
  Regex.match_numbered line = Some g -> truthy g = true.
Proof.
  intros H. apply match_numbered_sound in H.
  destruct H as (_ & _ & _ & _ & _ & _ & Hne & _).
  destruct g; [congruence | reflexivity].
Qed.

Lemma fold_parse_step lines out :
  candidates_of lines out ->
  forall acc, fold_left parse_step lines acc = acc ++ out.
Proof.
  induction 1 as [|line content rest out Hnum _ IH|line rest out Hno _ IH];
    intros acc; simpl.
  - now rewrite app_nil_r.
  - unfold parse_step at 2.
    destruct (match_numbered_complete line content Hnum)
      as (g & -> & -> & ->).
    rewrite IH, <- app_assoc. reflexivity.
  - unfold parse_step at 2.
    destruct (Regex.match_numbered line) as [g|] eqn:Eg; [|apply IH].
    exfalso. exact (Hno g (match_numbered_sound line g Eg)).
Qed.

Lemma candidates_of_total lines : exists out, candidates_of lines out.
Proof.
  induction lines as [|line rest (out & IH)].
  - exists []. constructor.
  - destruct (Regex.match_numbered line) as [g|] eqn:Eg.
    + exists (trim g :: out).
      apply candidates_keep; [now apply match_numbered_sound | exact IH].
    + exists out.
      apply candidates_drop; [now apply match_numbered_none | exact IH].
Qed.


(** *** Trimming, stated without [trim] *)







(** *** The two readings agree on lines without line terminators *)










(** The second example of the specification: prose around a numbered
    line is dropped. *)
Example parse_prose_dropped :
  parseCommitCandidates (js "Here are some options:
1. foo
Note: done
") = [js "foo"].
Proof. reflexivity. Qed.

(** A line that a carriage return ends is not a numbered line: the
    content reaches to the end of the line and holds no line terminator. *)
Example parse_carriage_return :
  parseCommitCandidates (js "1. foo" ++ [CR; LF] ++ js "2. bar")
  = [js "bar"].
Proof. reflexivity. Qed.

Lemma parse_step_trimmed acc line :
  Forall (fun c => trim c = c) acc ->
  Forall (fun c => trim c = c) (parse_step acc line).
Proof.
  intros H. unfold parse_step.
  destruct (Regex.match_numbered line) as [g|]; [|exact H].
  destruct (truthy g); [|exact H].
  apply Forall_app. split; [exact H|].
  constructor; [apply trim_idempotent | constructor].
Qed.

(** Every candidate is its own trim. *)
Lemma candidates_trimmed text :
  Forall (fun c => trim c = c) (parseCommitCandidates text).
Proof.
  unfold parseCommitCandidates.
  assert (H : forall lines acc,
             Forall (fun c => trim c = c) acc ->
             Forall (fun c => trim c = c) (fold_left parse_step lines acc)).
  { induction lines as [|l ls IH]; intros acc Hacc; simpl; [exact Hacc|].
    apply IH. now apply parse_step_trimmed. }
  apply H. constructor.
Qed.

(** C2 -- a numbered line whose content is white space only, ["1. "],
    yields the empty string as a candidate: the content is tested before
    it is trimmed. *)
Theorem parseCommitCandidates_blank_content :
  parseCommitCandidates (js "1. ") = [[]]
  /\ ~ Forall (fun c => c <> []) (parseCommitCandidates (js "1. ")).
Proof.
  split; [reflexivity|].
  intros H. inversion H as [|? ? Hne _]. now apply Hne.
Qed.

(** ** The escaping *)

Lemma escapeQuotes_flat_map str :
  escapeQuotes str = flat_map escape_unit str.
Proof.
  unfold escapeQuotes, replace_all.
  induction str as [|c t IH]; [reflexivity|].
  change (flat_map escape_unit (c :: t))
    with (escape_unit c ++ flat_map escape_unit t).
  rewrite <- IH.
  change (flat_map (fun x => if x =? DQUOTE then [BACKSLASH; DQUOTE] else [x])
            (c :: t))
    with ((if c =? DQUOTE then [BACKSLASH; DQUOTE] else [c])
          ++ flat_map
               (fun x => if x =? DQUOTE then [BACKSLASH; DQUOTE] else [x]) t).
  rewrite flat_map_app. f_equal.
  unfold escape_unit.
  destruct (N.eqb_spec c DQUOTE) as [->|Hq]; [reflexivity|].
  cbn [flat_map orb app].
  destruct (N.eqb_spec c BACKTICK) as [->|Hb]; reflexivity.
Qed.

(** C3 -- [escapeQuotes] puts a backslash before every double quote and
    every backtick and leaves every other character as it is: the result
    is the message with each character replaced by [escape_unit] of it,
    which is the character itself unless it is one of the two. *)
Theorem escapeQuotes_spec (str : jsstring) :
  escapeQuotes str = flat_map escape_unit str
  /\ (forall c, c <> DQUOTE -> c <> BACKTICK -> escape_unit c = [c])
  /\ escape_unit DQUOTE = [BACKSLASH; DQUOTE]
  /\ escape_unit BACKTICK = [BACKSLASH; BACKTICK].
Proof.
  split; [apply escapeQuotes_flat_map|]. split; [|split; reflexivity].
  intros c Hq Hb. unfold escape_unit.
  apply N.eqb_neq in Hq, Hb. now rewrite Hq, Hb.
Qed.

Lemma escapeQuotes_spec_witness :
  DOLLAR <> DQUOTE /\ DOLLAR <> BACKTICK /\ escape_unit DOLLAR = [DOLLAR].
Proof.
  assert (Hq : DOLLAR <> DQUOTE) by discriminate.
  assert (Hb : DOLLAR <> BACKTICK) by discriminate.
  split; [exact Hq|]. split; [exact Hb|].
  exact (proj1 (proj2 (escapeQuotes_spec (js "a$b"))) DOLLAR Hq Hb).
Defined.

Lemma escapeQuotes_cons c t :
  escapeQuotes (c :: t) = escape_unit c ++ escapeQuotes t.
Proof. now rewrite !escapeQuotes_flat_map. Qed.

Lemma list_pair_ind (A : Type) (P : list A -> Prop) :
  P [] -> (forall a, P [a]) ->
  (forall a b t, P t -> P (b :: t) -> P (a :: b :: t)) ->
  forall l, P l.
Proof.
  intros H0 H1 H2 l.
  assert (H : P l /\ forall a, P (a :: l)).
  { induction l as [|b t [IHt IHc]]; split; auto. }
  apply H.
Qed.

Lemma escape_unit_of c :
  escape_unit c = if (c =? DQUOTE) || (c =? BACKTICK)
                  then [BACKSLASH; c] else [c].
Proof. reflexivity. Qed.

(** Reading one escaped character of the message, when it is no
    backslash and no dollar sign. *)
Lemma sh_dquote_plain c t rest :
  c <> BACKSLASH -> c <> DOLLAR ->
  sh_dquote (escapeQuotes (c :: t) ++ rest)
  = match sh_dquote (escapeQuotes t ++ rest) with
    | Some (text, more) => Some (c :: text, more)
    | None => None
    end.
Proof.
  intros Hb Hd. rewrite escapeQuotes_cons, escape_unit_of.
  apply N.eqb_neq in Hb, Hd.
  destruct (N.eqb_spec c DQUOTE) as [->|Hq].
  { cbn [orb app sh_dquote N.eqb Pos.eqb DQUOTE BACKSLASH DOLLAR BACKTICK].
    cbn [sh_special N.eqb Pos.eqb orb DQUOTE].
    destruct (sh_dquote (escapeQuotes t ++ rest)) as [[text more]|];
      reflexivity. }
  destruct (N.eqb_spec c BACKTICK) as [->|Hk].
  { cbn [orb app sh_dquote N.eqb Pos.eqb DQUOTE BACKSLASH DOLLAR BACKTICK].
    cbn [sh_special N.eqb Pos.eqb orb BACKTICK DQUOTE].
    destruct (sh_dquote (escapeQuotes t ++ rest)) as [[text more]|];
      reflexivity. }
  apply N.eqb_neq in Hq, Hk.
  cbn [orb app sh_dquote]. rewrite Hq, Hd, Hk, Hb. reflexivity.
Qed.

(** Reading a backslash of the message and the character after it, when
    that character is none of the five. *)
Lemma sh_dquote_backslash d t rest :
  sh_special d = false -> d <> LF ->
  sh_dquote (escapeQuotes (BACKSLASH :: d :: t) ++ rest)
  = match sh_dquote (escapeQuotes t ++ rest) with
    | Some (text, more) => Some (BACKSLASH :: d :: text, more)
    | None => None
    end.
Proof.
  intros Hs Hl. rewrite !escapeQuotes_cons, !escape_unit_of.
  pose proof Hs as Hs'. unfold sh_special in Hs.
  apply orb_false_iff in Hs as [Hs _].
  apply orb_false_iff in Hs as [Hs _].
  apply orb_false_iff in Hs as [Hq Hk].
  rewrite Hq, Hk.
  change ((BACKSLASH =? DQUOTE) || (BACKSLASH =? BACKTICK)) with false.
  cbn [orb app].
  change (sh_dquote (BACKSLASH :: d :: escapeQuotes t ++ rest))
    with (match sh_dquote (escapeQuotes t ++ rest) with
          | Some (text, more) =>
              if sh_special d then Some (d :: text, more)
              else if d =? LF then Some (text, more)
              else Some (BACKSLASH :: d :: text, more)
          | None => None
          end).
  apply N.eqb_neq in Hl. rewrite Hs', Hl. reflexivity.
Qed.

Lemma sh_dquote_round_trip m :
  shell_safe m = true ->
  sh_dquote (escapeQuotes m ++ [DQUOTE]) = Some (m, []).
Proof.
  induction m as [| a | a b t IHt IHb] using list_pair_ind.
  - reflexivity.
  - cbn [shell_safe]. intros H.
    apply andb_true_iff in H as [H _].
    apply andb_true_iff in H as [Hd Hb].
    rewrite orb_false_r in Hb.
    apply negb_true_iff, N.eqb_neq in Hd, Hb.
    now rewrite (sh_dquote_plain a [] [DQUOTE] Hb Hd).
  - intros H.
    assert (Hrest : shell_safe (b :: t) = true).
    { cbn [shell_safe] in H. now apply andb_true_iff in H as [_ H]. }
    assert (Hd : a <> DOLLAR).
    { cbn [shell_safe] in H. apply andb_true_iff in H as [H _].
      apply andb_true_iff in H as [H _].
      now apply negb_true_iff, N.eqb_neq in H. }
    destruct (N.eqb_spec a BACKSLASH) as [->|Ha].
    + assert (Hb : sh_special b = false /\ b <> LF).
      { cbn [shell_safe] in H. apply andb_true_iff in H as [H _].
        apply andb_true_iff in H as [_ H].
        change (BACKSLASH =? BACKSLASH) with true in H.
        cbn [negb orb] in H. apply negb_true_iff in H.
        apply orb_false_iff in H as [Hs Hl].
        split; [exact Hs | now apply N.eqb_neq]. }
      destruct Hb as [Hs Hl].
      assert (Ht : shell_safe t = true).
      { cbn [shell_safe] in Hrest.
        now apply andb_true_iff in Hrest as [_ Ht]. }
      rewrite (sh_dquote_backslash b t [DQUOTE] Hs Hl), (IHt Ht).
      reflexivity.
    + rewrite (sh_dquote_plain a (b :: t) [DQUOTE] Ha Hd), (IHb Hrest).
      reflexivity.
Qed.

(** C4, as the code has it -- for every message that holds no dollar sign
    and in which every backslash is followed by a character other than
    double quote, backtick, backslash, dollar sign and line feed (so for
    every message of double quotes, backticks and other characters
    without backslash and dollar sign), the escaped form, embedded in the
    double-quoted argument of the command, is read by the shell as the
    original message, verbatim. *)
Theorem escapeQuotes_round_trip (m : jsstring) :
  shell_safe m = true -> sh_word (escapeQuotes m) = Some m.
Proof.
  intros H. unfold sh_word. now rewrite (sh_dquote_round_trip m H).
Qed.

Lemma escapeQuotes_round_trip_witness :
  shell_safe (js "say " ++ [DQUOTE] ++ js "hi" ++ [DQUOTE; BACKTICK]) = true
  /\ sh_word
       (escapeQuotes (js "say " ++ [DQUOTE] ++ js "hi" ++ [DQUOTE; BACKTICK]))
     = Some (js "say " ++ [DQUOTE] ++ js "hi" ++ [DQUOTE; BACKTICK]).
Proof.
  split; [reflexivity|].
  apply (escapeQuotes_round_trip
           (js "say " ++ [DQUOTE] ++ js "hi" ++ [DQUOTE; BACKTICK])).
  reflexivity.
Defined.

(** C4, as stated, fails: a message with a double quote and a backtick
    that starts with two backslashes is read back with one; and a
    message that ends in a backslash, or has a backslash right before its
    double quote, leaves the word without its end. *)
Lemma escapeQuotes_round_trip_counterexample :
  In DQUOTE [BACKSLASH; BACKSLASH; DQUOTE; BACKTICK]
  /\ In BACKTICK [BACKSLASH; BACKSLASH; DQUOTE; BACKTICK]
  /\ sh_word (escapeQuotes [BACKSLASH; BACKSLASH; DQUOTE; BACKTICK])
     = Some [BACKSLASH; DQUOTE; BACKTICK]
  /\ sh_word (escapeQuotes [BACKSLASH; BACKSLASH; DQUOTE; BACKTICK])
     <> Some [BACKSLASH; BACKSLASH; DQUOTE; BACKTICK]
  /\ sh_word (escapeQuotes [DQUOTE; BACKTICK; BACKSLASH]) = None
  /\ sh_word (escapeQuotes [BACKTICK; BACKSLASH; DQUOTE]) = None.
Proof.
  repeat split; simpl; auto; discriminate.
Qed.

(** ** Facts about runs *)

Lemma interp_run {R} (w : World) (p : prog R) tr r :
  interp w p = Some (tr, r) -> run p tr r.
Proof.
  revert tr r. induction p as [x|e|X e k IH]; intros tr r; simpl.
  - intros [= <- <-]. auto.
  - intros [= <- <-]. auto.
  - destruct (respond w e) as [[x o]|] eqn:Er; [|discriminate].
    destruct (interp w (k x)) as [[tr' r']|] eqn:Ei; [|discriminate].
    intros [= <- <-]. exists x, o, tr'. split; [|split; [reflexivity|]].
    + destruct e; simpl in Er |- *; try (injection Er as <- <-; reflexivity).
      destruct (nth_error options (operator_pick w options)) as [chosen|] eqn:En;
        [|discriminate].
      injection Er as <- <-. eauto.
    + now apply IH.
Qed.

(** ** The provider dispatch *)

Lemma vendor_of_provider provider :
  (jseq provider (js "openai") = true /\ provider = vendor_name OpenAI)
  \/ (jseq provider (js "openai") = false
      /\ jseq provider (js "anthropic") = true
      /\ provider = vendor_name Anthropic)
  \/ (jseq provider (js "openai") = false
      /\ jseq provider (js "anthropic") = false
      /\ jseq provider (js "google") = true
      /\ provider = vendor_name Google)
  \/ (jseq provider (js "openai") = false
      /\ jseq provider (js "anthropic") = false
      /\ jseq provider (js "google") = false
      /\ ~ supported provider).
Proof.
  destruct (jseq provider (js "openai")) eqn:E1.
  { left. split; [reflexivity | now apply jseq_eq]. }
  destruct (jseq provider (js "anthropic")) eqn:E2.
  { right; left. repeat split. now apply jseq_eq. }
  destruct (jseq provider (js "google")) eqn:E3.
  { right; right; left. repeat split. now apply jseq_eq. }
  right; right; right. repeat split.
  intros [[] ->]; cbv in E1, E2, E3; discriminate.
Qed.

Lemma createProvider_supported config v :
  ModelConfig.provider config = vendor_name v ->
  createProviderFromConfig config =
  Vis (CreateModel (built_model config v))
    (fun _ => Ret (built_model config v)).
Proof.
  intros Hp. unfold createProviderFromConfig. rewrite Hp.
  destruct v; reflexivity.
Qed.

Lemma createProvider_unsupported config :
  ~ supported (ModelConfig.provider config) ->
  createProviderFromConfig config =
  Throw (unsupported_provider (ModelConfig.provider config)).
Proof.
  intros Hn. unfold createProviderFromConfig.
  destruct (vendor_of_provider (ModelConfig.provider config))
    as [[_ E]|[(_ & _ & E)|[(_ & _ & _ & E)|(-> & -> & -> & _)]]];
    try reflexivity; exfalso; apply Hn; eexists; exact E.
Qed.

(** C7, as the code has it -- [createProviderFromConfig] throws, and then
    the unsupported-provider error, exactly when the provider is none of
    openai, anthropic and google; for each of the three it builds the
    client of that provider from [apiKey] and [baseURL], under the
    configured model name when there is one and it is not the empty
    string, under the provider's default name when the model is absent or
    the empty string. *)
Theorem createProviderFromConfig_spec (config : ModelConfig.t) :
  ((exists tr e, run (createProviderFromConfig config) tr (Thrown e))
   <-> ~ supported (ModelConfig.provider config))
  /\ (forall tr e,
        run (createProviderFromConfig config) tr (Thrown e) ->
        tr = []
        /\ e = Error (js "Unsupported provider: "
                      ++ ModelConfig.provider config))
  /\ (forall v,
        ModelConfig.provider config = vendor_name v ->
        exists m,
          (forall tr r,
              run (createProviderFromConfig config) tr r <->
              tr = [ModelCreated m] /\ r = Returned m)
          /\ LanguageModel.vendor m = v
          /\ LanguageModel.apiKey m = ModelConfig.apiKey config
          /\ LanguageModel.baseURL m = ModelConfig.baseURL config
          /\ (forall name,
                ModelConfig.model config = Some name -> name <> [] ->
                LanguageModel.modelId m = name)
          /\ (ModelConfig.model config = None
              \/ ModelConfig.model config = Some [] ->
              LanguageModel.modelId m = default_model v)).
Proof.
  assert (Hsup : forall v,
             ModelConfig.provider config = vendor_name v ->
             forall tr r,
               run (createProviderFromConfig config) tr r <->
               tr = [ModelCreated (built_model config v)]
               /\ r = Returned (built_model config v)).
  { intros v Hv tr r. rewrite (createProvider_supported config v Hv).
    simpl. split.
    - intros (x & o & tr' & -> & -> & -> & ->). auto.
    - intros [-> ->]. exists tt. eauto 6. }
  assert (Hthrow : forall tr e,
             run (createProviderFromConfig config) tr (Thrown e) ->
             ~ supported (ModelConfig.provider config)).
  { intros tr e H [v Hv].
    destruct (proj1 (Hsup v Hv tr (Thrown e)) H) as [_ Hr]. discriminate. }
  split; [split|split].
  - intros (tr & e & H). exact (Hthrow tr e H).
  - intros Hn. rewrite (createProvider_unsupported config Hn).
    exists [], (unsupported_provider (ModelConfig.provider config)).
    simpl. auto.
  - intros tr e H. pose proof (Hthrow tr e H) as Hn.
    rewrite (createProvider_unsupported config Hn) in H.
    destruct H as [-> [= ->]]. auto.
  - intros v Hv. eexists. split; [exact (Hsup v Hv)|]. simpl.
    repeat split.
    + intros name -> Hne. destruct name; [congruence | reflexivity].
    + intros [-> | ->]; reflexivity.
Qed.

Lemma createProviderFromConfig_spec_witness :
  exists m,
    run (createProviderFromConfig
           (ModelConfig.mk (js "google") (Some (js "gemini-pro"))
              (js "key") None))
      [ModelCreated m] (Returned m)
    /\ LanguageModel.modelId m = js "gemini-pro".
Proof.
  destruct (proj2 (proj2 (createProviderFromConfig_spec
                            (ModelConfig.mk (js "google")
                               (Some (js "gemini-pro")) (js "key") None)))
              Google eq_refl)
    as (m & Hrun & _ & _ & _ & Hname & _).
  exists m. split.
  - apply Hrun. auto.
  - apply Hname; [reflexivity | discriminate].
Defined.

(** C7, as stated, fails: with a model name that is present and empty the
    client is built under the default name, not under the configured one. *)
Lemma createProviderFromConfig_counterexample :
  ModelConfig.model empty_model_config <> None
  /\ exists m,
       run (createProviderFromConfig empty_model_config)
         [ModelCreated m] (Returned m)
       /\ LanguageModel.modelId m = js "gpt-4o-mini"
       /\ Some (LanguageModel.modelId m)
          <> ModelConfig.model empty_model_config.
Proof.
  split; [discriminate|].
  eexists. split; [|split].
  - simpl. exists tt. eauto 6.
  - reflexivity.
  - discriminate.
Qed.

(** ** The flow of [execute] *)

Lemma provider_cases config :
  (exists v, ModelConfig.provider config = vendor_name v)
  \/ ~ supported (ModelConfig.provider config).
Proof.
  destruct (vendor_of_provider (ModelConfig.provider config))
    as [[_ E]|[(_ & _ & E)|[(_ & _ & _ & E)|(_ & _ & _ & E)]]]; eauto.
Qed.

Lemma truthy_true s : truthy s = true <-> s <> [].
Proof. destruct s; simpl; split; congruence. Qed.

(** One step of reading a run of [execute]: the next effect and what
    answered it, or the next branch of the program. *)
Ltac run_step H :=
  cbn [bind try_catch run] in H;
  lazymatch type of H with
  | run (if ?b then _ else _) _ _ =>
      let E := fresh "E" in destruct b eqn:E
  | run (try_catch (if ?b then _ else _) _) _ _ =>
      let E := fresh "E" in destruct b eqn:E
  | run (match ?c with Some _ => _ | None => _ end) _ _ =>
      let config := fresh "config" in destruct c as [config|]
  | run (try_catch (bind (createProviderFromConfig ?c) _) _) _ _ =>
      let v := fresh "v" in
      let Hv := fresh "Hv" in
      destruct (provider_cases c) as [[v Hv]|Hv];
      [ rewrite (createProvider_supported c v Hv) in H
      | rewrite (createProvider_unsupported c Hv) in H ]
  | run (try_catch (bind (match ?c with inl _ => _ | inr _ => _ end) _) _)
      _ _ =>
      let err := fresh "err" in
      let text := fresh "text" in
      destruct c as [err|text]
  | exists _, _ =>
      let x := fresh "x" in
      let o := fresh "o" in
      let tr := fresh "tr" in
      let A := fresh "A" in
      destruct H as (x & o & tr & A & -> & H);
      cbn [answers] in A;
      lazymatch type of A with
      | exists _, _ =>
          let index := fresh "index" in
          let chosen := fresh "chosen" in
          let Hnth := fresh "Hnth" in
          destruct A as (index & chosen & Hnth & -> & ->)
      | _ = _ => subst o
      end
  | _ /\ _ => destruct H as [-> ->]
  end.

Ltac run_paths H :=
  unfold execute, execCommand, generateText, perform in H;
  repeat run_step H.

Ltac in_cases H :=
  cbn [In] in H;
  repeat (destruct H as [H|H]);
  try discriminate H; try contradiction.

Lemma interp_trace_result (w : World) input r :
  result_in w input = Some r -> run (execute input) (trace_in w input) r.
Proof.
  unfold result_in, trace_in. intros H. apply (interp_run w).
  destruct (interp w (execute input)) as [[tr r']|]; [|discriminate].
  now injection H as ->.
Qed.







(** C9 -- when the operator picks an option and then answers the
    confirmation with no, no commit command is run and [execute] returns,
    without an [error], the record that hands the picked message back as
    [suggestedMessage]. *)
Theorem confirmation_declined
    (input : GenerationRequest) (tr : list obs) (r : outcome ToolResult.t)
    (prompt : jsstring) (options : list SelectOption.t) (index : nat)
    (chosen : SelectOption.t) (question : jsstring) (default : bool) :
  run (execute input) tr r ->
  In (Picked prompt options index) tr ->
  nth_error options index = Some chosen ->
  In (Answered question default false) tr ->
  (exists result,
      r = Returned result
      /\ result = ToolResult.mk false None None (Some true)
                    (Some (SelectOption.value chosen))
      /\ ToolResult.error result = None
      /\ ToolResult.suggestedMessage result
         = Some (SelectOption.value chosen))
  /\ Forall (fun o => is_commit_obs o = false) tr.
Proof.
  intros H Hin Hnth Hno. run_paths H; in_cases Hin; in_cases Hno;
    injection Hin as <- <- <-;
    rewrite Hnth in Hnth0; injection Hnth0 as <-.
  split; [eexists; repeat split|repeat constructor].
Qed.

Lemma confirmation_declined_witness :
  run (execute request0) decline_trace (Returned (declined (js "fix: b")))
  /\ In (Answered (js "Commit with this message?") true false) decline_trace
  /\ Forall (fun o => is_commit_obs o = false) decline_trace.
Proof.
  assert (Hrun : run (execute request0) decline_trace
                   (Returned (declined (js "fix: b"))))
    by (apply (interp_trace_result decline_world); reflexivity).
  assert (Hin : In (Picked (js "Select a commit message:")
                      [candidate_option (js "feat: a");
                       candidate_option (js "fix: b"); cancel_option] 1)
                  decline_trace)
    by (do 10 right; left; reflexivity).
  assert (Hno : In (Answered (js "Commit with this message?") true false)
                  decline_trace)
    by (do 11 right; left; reflexivity).
  split; [exact Hrun|]. split; [exact Hno|].
  exact (proj2 (confirmation_declined request0 decline_trace
                  (Returned (declined (js "fix: b"))) _ _ 1
                  (candidate_option (js "fix: b")) _ _
                  Hrun Hin eq_refl Hno)).
Defined.

(** Reading [tr = before ++ o :: after] off a trace given in full: one
    case for every place [o] can take. *)
Ltac trace_split H before :=
  lazymatch type of H with
  | [] = _ => destruct before; discriminate H
  | _ :: _ = _ =>
      let o' := fresh "o" in
      destruct before as [|o' before]; cbn [app] in H;
      [ injection H as <- <-
      | let Ho := fresh "Ho" in
        injection H as Ho H; subst o'; trace_split H before ]
  end.

Lemma staged_checked settled :
  negb (truthy (trim (CommandResult.output (command_result settled)))) = false
  -> trim (CommandResult.output (command_result settled)) <> [].
Proof.
  intros H. apply negb_false_iff in H. now apply truthy_true.
Qed.

Lemma repo_checked settled :
  negb (CommandResult.success (command_result settled)) = false ->
  exists stdout stderr, settled = Resolved stdout stderr.
Proof.
  destruct settled; simpl; [eauto | discriminate].
Qed.

(** C5 -- whenever the staged summary that [execute] reads is empty after
    trimming, [execute] returns [{success: false, error: "No staged
    changes"}], no provider is built and no text is requested of a model;
    and in every run, before a provider is built or a text is requested,
    the repository check has resolved, the staged summary has been read
    and was not empty after trimming, and a model configuration has been
    read and was there. *)
Theorem fail_fast
    (input : GenerationRequest) (tr : list obs) (r : outcome ToolResult.t) :
  run (execute input) tr r ->
  (forall settled,
      In (Ran GIT_STAT settled) tr ->
      trim (CommandResult.output (command_result settled)) = [] ->
      r = Returned (ToolResult.mk false None (Some (js "No staged changes"))
                      None None)
      /\ Forall (fun o => is_model_obs o = false) tr)
  /\ (forall before o after,
        tr = before ++ o :: after ->
        is_model_obs o = true ->
        (exists stdout stderr,
            In (Ran GIT_CHECK (Resolved stdout stderr)) before)
        /\ (exists settled,
              In (Ran GIT_STAT settled) before
              /\ trim (CommandResult.output (command_result settled)) <> [])
        /\ (exists config, In (ConfigRead (Some config)) before)).
Proof.
  intros H. split.
  - intros settled Hin Hempty. run_paths H; in_cases Hin;
      try (cbv in Hin; discriminate Hin);
      injection Hin as <-;
      try (apply staged_checked in E0; contradiction).
    split; [reflexivity | repeat constructor].
  - intros before o after Heq Hmodel. run_paths H;
      trace_split Heq before; try discriminate Hmodel;
      apply staged_checked in E0;
      apply repo_checked in E as (stdout & stderr & ->);
      (split; [exists stdout, stderr|split; [exists x0; split; [|exact E0]
                                           |exists config]]);
      cbn [In]; tauto.
Qed.

Lemma fail_fast_witness :
  run (execute request0) nothing_staged_trace
    (Returned (failed (js "No staged changes")))
  /\ In (Ran GIT_STAT (Resolved [32; LF] [])) nothing_staged_trace
  /\ trim (CommandResult.output (command_result (Resolved [32; LF] []))) = []
  /\ Forall (fun o => is_model_obs o = false) nothing_staged_trace.
Proof.
  assert (Hrun : run (execute request0) nothing_staged_trace
                   (Returned (failed (js "No staged changes"))))
    by (apply (interp_trace_result nothing_staged_world); reflexivity).
  assert (Hin : In (Ran GIT_STAT (Resolved [32; LF] []))
                  nothing_staged_trace)
    by (right; left; reflexivity).
  split; [exact Hrun|]. split; [exact Hin|]. split; [reflexivity|].
  exact (proj2 (proj1 (fail_fast request0 nothing_staged_trace
                         (Returned (failed (js "No staged changes"))) Hrun)
                  (Resolved [32; LF] []) Hin eq_refl)).
Defined.

(** C6 -- when the repository check passes and the staged-summary command
    then fails, having written nothing, [execute] reports it as nothing
    staged: the result is [{success: false, error: "No staged changes"}],
    the same as for an empty summary of a command that succeeded. *)
Theorem summary_failure_reads_as_nothing_staged :
  CommandResult.success (command_result (shell summary_fails_world GIT_STAT))
  = false
  /\ result_in summary_fails_world request0
     = Some (Returned (failed (js "No staged changes")))
  /\ result_in summary_fails_world request0
     = result_in nothing_staged_world request0.
Proof. repeat split. Qed.

(** ** More about the parser *)

Lemma split_app sep a b :
  split sep (a ++ sep :: b) = split sep a ++ split sep b.
Proof.
  induction a as [|c t IH]; simpl.
  - now rewrite N.eqb_refl.
  - destruct (c =? sep); [now rewrite IH|].
    rewrite IH. pose proof (split_nonempty sep t) as Hne.
    destruct (split sep t); [congruence | reflexivity].
Qed.

Lemma fold_parse_acc lines acc :
  fold_left parse_step lines acc = acc ++ fold_left parse_step lines [].
Proof.
  destruct (candidates_of_total lines) as (out & Hout).
  now rewrite !(fold_parse_step _ _ Hout).
Qed.

(** X1 -- the candidates of two texts joined by a line feed are the
    candidates of the first followed by those of the second: lines are
    judged one by one, and nothing is merged or removed across lines. *)
Theorem parseCommitCandidates_app (a b : jsstring) :
  parseCommitCandidates (a ++ LF :: b)
  = parseCommitCandidates a ++ parseCommitCandidates b.
Proof.
  unfold parseCommitCandidates.
  rewrite split_app, fold_left_app.
  apply fold_parse_acc.
Qed.

Lemma digits_no_line_feed ds :
  forallb is_digit ds = true -> ~ In LF ds.
Proof.
  intros H Hin. rewrite forallb_forall in H.
  specialize (H LF Hin). discriminate.
Qed.

Lemma dots_no_line_feed s :
  forallb is_dot s = true -> ~ In LF s.
Proof.
  intros H Hin. rewrite forallb_forall in H.
  specialize (H LF Hin). discriminate.
Qed.

Lemma numbered_entry_line entry :
  well_formed_entry entry ->
  ~ In LF (numbered_entry entry)
  /\ numbered (numbered_entry entry) (snd entry).
Proof.
  intros (Hne & Hds & Hm & Hdots & _). unfold numbered_entry. split.
  - intros Hin. apply in_app_or in Hin as [Hin|Hin].
    + exact (digits_no_line_feed _ Hds Hin).
    + destruct Hin as [Hin|[Hin|Hin]]; try discriminate.
      exact (dots_no_line_feed _ Hdots Hin).
  - exists (fst entry), [32]. repeat split; assumption.
Qed.

Lemma candidates_of_entries entries :
  Forall well_formed_entry entries ->
  candidates_of (map numbered_entry entries) (map snd entries).
Proof.
  induction 1 as [|entry rest Hentry _ IH]; simpl; [constructor|].
  destruct (numbered_entry_line entry Hentry) as [_ Hnum].
  destruct Hentry as (_ & _ & _ & _ & Htrim).
  replace (snd entry :: map snd rest)
    with (trim (snd entry) :: map snd rest) by now rewrite Htrim.
  now apply candidates_keep.
Qed.

(** X2 -- a list written the way the prompt asks for it parses back to
    its messages: for any numbers (one or more digits each, in any order)
    and any messages that are non-empty, single-line and trimmed, the text
    of the lines "number, period, space, message" joined by line feeds
    yields exactly the messages, in order. *)
Theorem numbered_list_round_trip (entries : list (jsstring * jsstring)) :
  Forall well_formed_entry entries ->
  parseCommitCandidates (join LF (map numbered_entry entries))
  = map snd entries.
Proof.
  intros Hall. destruct entries as [|entry rest]; [reflexivity|].
  unfold parseCommitCandidates. rewrite split_join.
  - now rewrite (fold_parse_step _ _ (candidates_of_entries _ Hall)).
  - discriminate.
  - apply Forall_forall. intros line Hin.
    apply in_map_iff in Hin as (e & <- & He).
    rewrite Forall_forall in Hall.
    apply (numbered_entry_line e (Hall e He)).
Qed.

Lemma numbered_list_round_trip_witness :
  Forall well_formed_entry
    [(js "3", js "feat(x): a"); (js "1", js "fix: b"); (js "1", js "fix: b")]
  /\ parseCommitCandidates (js "3. feat(x): a
1. fix: b
1. fix: b") = [js "feat(x): a"; js "fix: b"; js "fix: b"].
Proof.
  assert (H : Forall well_formed_entry
                [(js "3", js "feat(x): a"); (js "1", js "fix: b");
                 (js "1", js "fix: b")]).
  { repeat constructor; discriminate. }
  split; [exact H|].
  exact (numbered_list_round_trip _ H).
Defined.

Lemma forallb_trimStart (p : code_unit -> bool) s :
  forallb p s = true -> forallb p (trimStart s) = true.
Proof.
  induction s as [|c t IH]; simpl; [auto|].
  intros H. destruct (is_space c); [|exact H].
  apply andb_true_iff in H as [_ H]. auto.
Qed.

Lemma forallb_rev (p : code_unit -> bool) s :
  forallb p s = true -> forallb p (rev s) = true.
Proof.
  rewrite !forallb_forall. intros H x Hin. apply H. now apply in_rev.
Qed.

Lemma forallb_trim (p : code_unit -> bool) s :
  forallb p s = true -> forallb p (trim s) = true.
Proof.
  intros H. unfold trim, trimEnd.
  now apply forallb_rev, forallb_trimStart, forallb_rev, forallb_trimStart.
Qed.

Lemma parse_step_single_line acc line :
  Forall (fun c => forallb is_dot c = true) acc ->
  Forall (fun c => forallb is_dot c = true) (parse_step acc line).
Proof.
  intros H. unfold parse_step.
  destruct (Regex.match_numbered line) as [g|] eqn:Eg; [|exact H].
  destruct (truthy g); [|exact H].
  apply Forall_app. split; [exact H|].
  constructor; [|constructor]. apply forallb_trim.
  apply match_numbered_sound in Eg.
  now destruct Eg as (_ & _ & _ & _ & _ & _ & _ & Hd).
Qed.

Lemma candidates_single_line text :
  Forall (fun c => forallb is_dot c = true) (parseCommitCandidates text).
Proof.
  assert (Hs : forall lines acc,
             Forall (fun c => forallb is_dot c = true) acc ->
             Forall (fun c => forallb is_dot c = true)
               (fold_left parse_step lines acc)).
  { induction lines as [|l ls IH]; intros acc Hacc; simpl; [exact Hacc|].
    apply IH. now apply parse_step_single_line. }
  apply Hs. constructor.
Qed.

(** X3 -- whatever the text, every candidate returned is a single line
    (it holds no line feed, carriage return or other line terminator) and
    has no white space at either end. *)
Theorem candidates_single_line_trimmed (text : jsstring) :
  Forall (fun c => forallb is_dot c = true /\ trim c = c)
    (parseCommitCandidates text).
Proof.
  pose proof (candidates_single_line text) as Hsingle.
  pose proof (candidates_trimmed text) as Htrim.
  rewrite Forall_forall in *. intros c Hc. split; auto.
Qed.

(** ** More about the escaping *)

Lemma escape_unit_plain c :
  needs_escape c = false -> escape_unit c = [c].
Proof. unfold escape_unit, needs_escape. now intros ->. Qed.

Lemma escape_unit_special c :
  needs_escape c = true -> escape_unit c = [BACKSLASH; c].
Proof. unfold escape_unit, needs_escape. now intros ->. Qed.

Lemma escaped_head m :
  match escapeQuotes m with
  | c :: _ => needs_escape c = false
  | [] => True
  end.
Proof.
  destruct m as [|c t]; [exact I|].
  rewrite escapeQuotes_cons.
  destruct (needs_escape c) eqn:E.
  - now rewrite (escape_unit_special c E).
  - now rewrite (escape_unit_plain c E).
Qed.

Lemma drop_escapes_plain c s :
  match s with d :: _ => needs_escape d = false | [] => True end ->
  drop_escapes (c :: s) = c :: drop_escapes s.
Proof.
  destruct s as [|d s]; [reflexivity|]. intros Hd.
  cbn [drop_escapes]. now rewrite Hd, andb_false_r.
Qed.

Lemma drop_escapes_escapeQuotes m :
  drop_escapes (escapeQuotes m) = m.
Proof.
  induction m as [|c t IH]; [reflexivity|].
  rewrite escapeQuotes_cons.
  pose proof (escaped_head t) as Hhead.
  destruct (needs_escape c) eqn:E.
  - rewrite (escape_unit_special c E).
    change ([BACKSLASH; c] ++ escapeQuotes t)
      with (BACKSLASH :: c :: escapeQuotes t).
    change (drop_escapes (BACKSLASH :: c :: escapeQuotes t))
      with (if (BACKSLASH =? BACKSLASH) && needs_escape c
            then drop_escapes (c :: escapeQuotes t)
            else BACKSLASH :: drop_escapes (c :: escapeQuotes t)).
    rewrite E. cbn [N.eqb andb].
    rewrite (drop_escapes_plain c _ Hhead), IH. reflexivity.
  - rewrite (escape_unit_plain c E). cbn [app].
    rewrite (drop_escapes_plain c _ Hhead), IH. reflexivity.
Qed.

(** X4 -- [escapeQuotes] loses nothing: two messages with the same
    escaped text are the same message, so distinct messages always give
    distinct commit commands. *)
Theorem escapeQuotes_injective (a b : jsstring) :
  escapeQuotes a = escapeQuotes b -> a = b.
Proof.
  intros H. rewrite <- (drop_escapes_escapeQuotes a), H.
  apply drop_escapes_escapeQuotes.
Qed.

Lemma escapeQuotes_injective_witness :
  escapeQuotes [BACKSLASH; DQUOTE] = escapeQuotes [BACKSLASH; DQUOTE]
  /\ [BACKSLASH; DQUOTE] = [BACKSLASH; DQUOTE].
Proof.
  split; [reflexivity|].
  apply (escapeQuotes_injective [BACKSLASH; DQUOTE] [BACKSLASH; DQUOTE]).
  reflexivity.
Defined.

Lemma escapeQuotes_length_filter m :
  List.length (escapeQuotes m)
  = (List.length m + List.length (filter needs_escape m))%nat.
Proof.
  induction m as [|c t IH]; [reflexivity|].
  rewrite escapeQuotes_cons, length_app, IH. cbn [filter List.length].
  destruct (needs_escape c) eqn:E.
  - rewrite (escape_unit_special c E). cbn [List.length]. lia.
  - rewrite (escape_unit_plain c E). cbn [List.length]. lia.
Qed.

Lemma filter_needs_escape_nil m :
  filter needs_escape m = [] <-> ~ In DQUOTE m /\ ~ In BACKTICK m.
Proof.
  split.
  - intros H. split; intros Hin;
      (assert (Hf : In DQUOTE (filter needs_escape m)
                    \/ In BACKTICK (filter needs_escape m))
         by (first [left; now apply filter_In | right; now apply filter_In]));
      rewrite H in Hf; destruct Hf as [[]|[]].
  - intros [Hq Hb]. induction m as [|c t IH]; [reflexivity|].
    cbn [filter]. unfold needs_escape at 1.
    destruct (N.eqb_spec c DQUOTE) as [->|_]; [exfalso; apply Hq; now left|].
    destruct (N.eqb_spec c BACKTICK) as [->|_]; [exfalso; apply Hb; now left|].
    cbn [orb]. apply IH; intros Hin; [apply Hq | apply Hb]; now right.
Qed.

(** X5 -- [escapeQuotes] makes a message longer by one character for each
    double quote and each backtick in it, and it returns the message as
    it is exactly when the message holds neither: dollar signs,
    backslashes, line feeds and every other character pass through. *)
Theorem escapeQuotes_growth (m : jsstring) :
  List.length (escapeQuotes m)
  = (List.length m + List.length (filter needs_escape m))%nat
  /\ (escapeQuotes m = m <-> ~ In DQUOTE m /\ ~ In BACKTICK m).
Proof.
  split; [apply escapeQuotes_length_filter|].
  rewrite <- filter_needs_escape_nil. split.
  - intros H. pose proof (escapeQuotes_length_filter m) as Hlen.
    rewrite H in Hlen.
    destruct (filter needs_escape m); [reflexivity|].
    cbn [List.length] in Hlen. lia.
  - intros H. induction m as [|c t IH]; [reflexivity|].
    cbn [filter] in H. destruct (needs_escape c) eqn:E; [discriminate|].
    rewrite escapeQuotes_cons, (escape_unit_plain c E), (IH H).
    reflexivity.
Qed.

Lemma escapeQuotes_growth_witness :
  ~ In DQUOTE (js "fix: $HOME\n") /\ ~ In BACKTICK (js "fix: $HOME\n")
  /\ escapeQuotes (js "fix: $HOME\n") = js "fix: $HOME\n".
Proof.
  assert (Hq : ~ In DQUOTE (js "fix: $HOME\n"))
    by (cbv; intuition discriminate).
  assert (Hb : ~ In BACKTICK (js "fix: $HOME\n"))
    by (cbv; intuition discriminate).
  split; [exact Hq|]. split; [exact Hb|].
  exact (proj2 (proj2 (escapeQuotes_growth (js "fix: $HOME\n")))
           (conj Hq Hb)).
Defined.

Lemma needs_escape_backslash : needs_escape BACKSLASH = false.
Proof. reflexivity. Qed.

(** X6 -- in the text [escapeQuotes] returns, every double quote and every
    backtick stands right after a backslash. *)
Theorem escaped_quote_follows_backslash
    (m before after : jsstring) (c : code_unit) :
  escapeQuotes m = before ++ c :: after ->
  needs_escape c = true ->
  exists before', before = before' ++ [BACKSLASH].
Proof.
  intros Heq Hc. revert before Heq.
  induction m as [|x t IH]; intros before Heq.
  - destruct before; discriminate.
  - rewrite escapeQuotes_cons in Heq.
    destruct (needs_escape x) eqn:E.
    + rewrite (escape_unit_special x E) in Heq.
      destruct before as [|y [|z before]]; cbn [app] in Heq.
      * injection Heq as <- _. rewrite needs_escape_backslash in Hc.
        discriminate.
      * injection Heq as <- _ _. now exists [].
      * injection Heq as _ _ Heq.
        destruct (IH before Heq) as (b & ->). now exists (y :: z :: b).
    + rewrite (escape_unit_plain x E) in Heq.
      destruct before as [|y before]; cbn [app] in Heq.
      * injection Heq as <- _. congruence.
      * injection Heq as _ Heq.
        destruct (IH before Heq) as (b & ->). now exists (y :: b).
Qed.

Lemma escaped_quote_follows_backslash_witness :
  escapeQuotes (js "a" ++ [DQUOTE] ++ js "b")
  = [97; BACKSLASH] ++ DQUOTE :: js "b"
  /\ needs_escape DQUOTE = true
  /\ exists before', [97; BACKSLASH] = before' ++ [BACKSLASH].
Proof.
  split; [reflexivity|]. split; [reflexivity|].
  apply (escaped_quote_follows_backslash
           (js "a" ++ [DQUOTE] ++ js "b") [97; BACKSLASH] (js "b") DQUOTE);
    reflexivity.
Defined.

Lemma jseq_eq_false (a b : jsstring) : a <> b -> jseq a b = false.
Proof.
  intros H. destruct (jseq a b) eqn:E; [|reflexivity].
  apply jseq_eq in E. contradiction.
Qed.

(** ** The prompt *)

Lemma app_prefix_step (A : Type) (a x h y : list A) :
  x = h ++ y -> a ++ x = (a ++ h) ++ y.
Proof. intros ->. apply app_assoc. Qed.

(** X7 -- in both formats the prompt holds the diff as it is, between a
    line that opens a [diff] fence and a line that closes it; what stands
    before and after does not depend on the diff. *)
Theorem buildPrompt_embeds_diff
    (format : Format) (count : N) (language : jsstring) :
  exists head tail,
    forall diff,
      buildPrompt diff format count language
      = head ++ [BACKTICK; BACKTICK; BACKTICK] ++ js "diff
" ++ diff ++ js "
" ++ [BACKTICK; BACKTICK; BACKTICK] ++ tail.
Proof.
  destruct format; unfold buildPrompt; eexists; eexists; intros diff;
    repeat first [ exact (eq_refl _) | apply app_prefix_step ].
Qed.

(** X8 -- [buildPrompt] asks for Chinese only when the language is
    exactly [zh]; for any other language text it builds the English
    prompt. *)
Theorem buildPrompt_language_default
    (diff : jsstring) (format : Format) (count : N) (language : jsstring) :
  language <> js "zh" ->
  buildPrompt diff format count language
  = buildPrompt diff format count (js "en").
Proof.
  intros H. apply jseq_eq_false in H.
  unfold buildPrompt. rewrite H.
  change (jseq (js "en") (js "zh")) with false. reflexivity.
Qed.

Lemma buildPrompt_language_default_witness :
  js "fr" <> js "zh"
  /\ buildPrompt (js "+x") gitmoji 2 (js "fr")
     = buildPrompt (js "+x") gitmoji 2 (js "en").
Proof.
  assert (H : js "fr" <> js "zh") by discriminate.
  split; [exact H|].
  exact (buildPrompt_language_default (js "+x") gitmoji 2 (js "fr") H).
Defined.

(** ** More about the flow *)

Ltac in_find := solve [cbn [In]; repeat (first [left; reflexivity | right])].

Ltac from_world w := apply (interp_trace_result w); reflexivity.

Lemma command_failed settled :
  CommandResult.success (command_result settled) = false ->
  exists message stdout stderr,
    settled = Rejected message stdout stderr
    /\ CommandResult.error (command_result settled) = Some message.
Proof.
  destruct settled as [so se|message so se]; simpl; [discriminate|].
  intros _. now exists message, so, se.
Qed.

(** X9 -- [execute] never throws: whatever the shell, the provider and
    the operator do, it returns a result record, and the record is of one
    of three shapes: success with a message; failure with an error; or
    not committed, [cancelled: true], without an error. *)
Theorem execute_returns
    (input : GenerationRequest) (tr : list obs) (r : outcome ToolResult.t) :
  run (execute input) tr r ->
  exists res, r = Returned res /\ well_shaped res.
Proof.
  intros H. run_paths H; eexists; (split; [reflexivity|]);
    unfold well_shaped; cbn;
    try (apply command_failed in E4 as (message & so & se & -> & _); cbn);
    first [ left; repeat split; congruence
          | right; left; repeat split; congruence
          | right; right; repeat split; congruence ].
Qed.

Lemma execute_returns_witness :
  run (execute request0) generation_fails_trace
    (Returned (failed (js "429 Too Many Requests")))
  /\ exists res,
       Returned (failed (js "429 Too Many Requests")) = Returned res
       /\ well_shaped res.
Proof.
  assert (Hrun : run (execute request0) generation_fails_trace
                   (Returned (failed (js "429 Too Many Requests"))))
    by from_world generation_fails_world.
  split; [exact Hrun|].
  exact (execute_returns request0 generation_fails_trace _ Hrun).
Defined.

Lemma commit_command_is_commit selected :
  starts_with (js "git commit") (commit_command selected) = true.
Proof. reflexivity. Qed.

(** X10 -- [execute] returns [success: true] exactly when a commit
    command was run and resolved; the record then carries, as [message],
    the value of the option the operator picked. *)
Theorem success_means_committed
    (input : GenerationRequest) (tr : list obs) (r : outcome ToolResult.t)
    (res : ToolResult.t) :
  run (execute input) tr r ->
  r = Returned res ->
  (ToolResult.success res = true <->
   exists cmd stdout stderr,
     starts_with (js "git commit") cmd = true
     /\ In (Ran cmd (Resolved stdout stderr)) tr)
  /\ (ToolResult.success res = true ->
      exists prompt options index chosen,
        In (Picked prompt options index) tr
        /\ nth_error options index = Some chosen
        /\ res = ToolResult.mk true (Some (SelectOption.value chosen))
                   None None None).
Proof.
  intros H Hr. run_paths H; injection Hr as <-; (split; [split|]);
    try (intros Hs; discriminate Hs);
    try (intros (cmd & so & se & Hc & Hin); in_cases Hin;
         injection Hin as <- ?; subst;
         first [ cbv in Hc; discriminate Hc | discriminate E4 ]).
  - intros _. destruct x8 as [so se|]; [|discriminate E4].
    exists (commit_command (SelectOption.value chosen)), so, se.
    split; [reflexivity | in_find].
  - intros _. reflexivity.
  - intros _. do 4 eexists. split; [in_find|]. split; [exact Hnth|].
    reflexivity.
Qed.

Lemma success_means_committed_witness :
  run (execute request0) commit_trace (Returned (committed (js "feat: a")))
  /\ ToolResult.success (committed (js "feat: a")) = true
  /\ exists cmd stdout stderr,
       starts_with (js "git commit") cmd = true
       /\ In (Ran cmd (Resolved stdout stderr)) commit_trace.
Proof.
  assert (Hrun : run (execute request0) commit_trace
                   (Returned (committed (js "feat: a"))))
    by from_world commit_world.
  split; [exact Hrun|]. split; [reflexivity|].
  exact (proj1 (proj1 (success_means_committed request0 commit_trace _
                         (committed (js "feat: a")) Hrun eq_refl))
           eq_refl).
Defined.

(** X11 -- a commit command is run only after the operator has picked an
    option other than cancel and answered the confirmation with yes; the
    command is [git commit -m] with the picked value, escaped, between
    double quotes; and no other commit command is run before or after
    it. *)
Theorem commit_after_confirmation
    (input : GenerationRequest) (tr : list obs) (r : outcome ToolResult.t)
    (before after : list obs) (cmd : jsstring) (settled : exec_outcome) :
  run (execute input) tr r ->
  tr = before ++ Ran cmd settled :: after ->
  starts_with (js "git commit") cmd = true ->
  (exists prompt options index chosen,
      In (Picked prompt options index) before
      /\ nth_error options index = Some chosen
      /\ SelectOption.value chosen <> js "__cancel__"
      /\ cmd = js "git commit -m " ++ [DQUOTE]
               ++ escapeQuotes (SelectOption.value chosen) ++ [DQUOTE])
  /\ In (Answered (js "Commit with this message?") true true) before
  /\ Forall (fun o => is_commit_obs o = false) before
  /\ Forall (fun o => is_commit_obs o = false) after.
Proof.
  intros H Heq Hc. remember (Ran cmd settled) as o eqn:Ho.
  run_paths H; trace_split Heq before; try discriminate Ho;
    injection Ho as <- <-;
    try (cbv in Hc; discriminate Hc);
    (split; [do 4 eexists; split; [in_find|]; split; [exact Hnth|];
             split; [intros Hv'; rewrite Hv', jseq_refl in E2; discriminate
                    |reflexivity]
            |split; [in_find|split; repeat constructor]]).
Qed.

Lemma commit_after_confirmation_witness :
  run (execute request0) commit_trace (Returned (committed (js "feat: a")))
  /\ commit_trace
     = firstn 12 commit_trace
       ++ Ran (js "git commit -m " ++ [DQUOTE] ++ js "feat: a" ++ [DQUOTE])
            commit_done
          :: skipn 13 commit_trace
  /\ In (Answered (js "Commit with this message?") true true)
       (firstn 12 commit_trace)
  /\ Forall (fun o => is_commit_obs o = false) (skipn 13 commit_trace).
Proof.
  assert (Hrun : run (execute request0) commit_trace
                   (Returned (committed (js "feat: a"))))
    by from_world commit_world.
  assert (Heq : commit_trace
                = firstn 12 commit_trace
                  ++ Ran (js "git commit -m " ++ [DQUOTE] ++ js "feat: a"
                          ++ [DQUOTE]) commit_done
                     :: skipn 13 commit_trace)
    by reflexivity.
  split; [exact Hrun|]. split; [exact Heq|].
  destruct (commit_after_confirmation request0 commit_trace _
              (firstn 12 commit_trace) (skipn 13 commit_trace)
              _ commit_done Hrun Heq eq_refl) as (_ & Hyes & _ & Hafter).
  split; [exact Hyes | exact Hafter].
Defined.

(** X12 -- every command text that [execute] hands to [execCommand] is
    one of three fixed texts, the repository check, the staged summary
    and the staged diff, or [git commit -m "<escaped>"] for the escaped
    form of some message; what the shell then makes of that text is not
    part of this statement. *)
Theorem commands_run
    (input : GenerationRequest) (tr : list obs) (r : outcome ToolResult.t)
    (cmd : jsstring) (settled : exec_outcome) :
  run (execute input) tr r ->
  In (Ran cmd settled) tr ->
  cmd = js "git rev-parse --is-inside-work-tree"
  \/ cmd = js "git diff --cached --stat"
  \/ cmd = js "git diff --cached"
  \/ exists selected,
       cmd = js "git commit -m " ++ [DQUOTE] ++ escapeQuotes selected
             ++ [DQUOTE].
Proof.
  intros H Hin. run_paths H; in_cases Hin; injection Hin as <- _;
    first [ now left | now (right; left) | now (right; right; left)
          | right; right; right; eexists; reflexivity ].
Qed.

Lemma commands_run_witness :
  run (execute request0) commit_trace (Returned (committed (js "feat: a")))
  /\ In (Ran GIT_DIFF (Resolved (js "+hello") [])) commit_trace
  /\ (GIT_DIFF = js "git rev-parse --is-inside-work-tree"
      \/ GIT_DIFF = js "git diff --cached --stat"
      \/ GIT_DIFF = js "git diff --cached"
      \/ exists selected,
           GIT_DIFF = js "git commit -m " ++ [DQUOTE]
                      ++ escapeQuotes selected ++ [DQUOTE]).
Proof.
  assert (Hrun : run (execute request0) commit_trace
                   (Returned (committed (js "feat: a"))))
    by from_world commit_world.
  assert (Hin : In (Ran GIT_DIFF (Resolved (js "+hello") [])) commit_trace)
    by in_find.
  split; [exact Hrun|]. split; [exact Hin|].
  exact (commands_run request0 commit_trace _ _ _ Hrun Hin).
Defined.

Lemma options_length (candidates : list jsstring) index chosen :
  nth_error (map candidate_option candidates ++ [cancel_option]) index
  = Some chosen ->
  (index <= List.length candidates)%nat.
Proof.
  intros H.
  assert (Hlt : (index < List.length (map candidate_option candidates
                                       ++ [cancel_option]))%nat)
    by (apply nth_error_Some; congruence).
  rewrite length_app, length_map in Hlt. cbn [List.length] in Hlt. lia.
Qed.

Lemma length_eqb_false (A : Type) (l : list A) :
  (List.length l =? 0)%nat = false -> l <> [].
Proof. destruct l; [discriminate | discriminate]. Qed.

Lemma length_eqb_true (A : Type) (l : list A) :
  (List.length l =? 0)%nat = true -> l = [].
Proof. destruct l; [reflexivity | discriminate]. Qed.

(** X13 -- what the operator is offered is every candidate parsed from
    the model's reply, in the reply's order, each under its own text, and
    the cancel option last; there is at least one candidate, and the
    requested count does not limit or pad the list. *)
Theorem options_offered
    (input : GenerationRequest) (tr : list obs) (r : outcome ToolResult.t)
    (prompt : jsstring) (options : list SelectOption.t) (index : nat) :
  run (execute input) tr r ->
  In (Picked prompt options index) tr ->
  exists m request text,
    In (TextRequested m request (inr text)) tr
    /\ parseCommitCandidates text <> []
    /\ options
       = map (fun msg => SelectOption.mk msg msg) (parseCommitCandidates text)
         ++ [SelectOption.mk (js "Cancel") (js "__cancel__")]
    /\ (index <= List.length (parseCommitCandidates text))%nat.
Proof.
  intros H Hin. run_paths H; in_cases Hin; injection Hin as <- <- <-;
    apply length_eqb_false in E1; apply options_length in Hnth;
    do 3 eexists; (split; [in_find|]); auto.
Qed.

Lemma options_offered_witness :
  run (execute request0) decline_trace (Returned (declined (js "fix: b")))
  /\ In (Picked (js "Select a commit message:")
           [candidate_option (js "feat: a"); candidate_option (js "fix: b");
            cancel_option] 1) decline_trace
  /\ exists m request text,
       In (TextRequested m request (inr text)) decline_trace
       /\ parseCommitCandidates text <> []
       /\ [candidate_option (js "feat: a"); candidate_option (js "fix: b");
           cancel_option]
          = map (fun msg => SelectOption.mk msg msg)
              (parseCommitCandidates text)
            ++ [SelectOption.mk (js "Cancel") (js "__cancel__")]
       /\ (1 <= List.length (parseCommitCandidates text))%nat.
Proof.
  assert (Hrun : run (execute request0) decline_trace
                   (Returned (declined (js "fix: b"))))
    by from_world decline_world.
  assert (Hin : In (Picked (js "Select a commit message:")
                      [candidate_option (js "feat: a");
                       candidate_option (js "fix: b"); cancel_option] 1)
                  decline_trace)
    by in_find.
  split; [exact Hrun|]. split; [exact Hin|].
  exact (options_offered request0 decline_trace _ _ _ 1 Hrun Hin).
Defined.

(** X14 -- the text is requested of the client built from the
    configuration that was read (its provider, key, base URL and model
    name or default), and the prompt is [buildPrompt] of whatever the
    staged-diff command wrote, whether that command succeeded or not, and
    of the request's format, count and language. *)
Theorem request_from_diff_and_config
    (input : GenerationRequest) (tr : list obs) (r : outcome ToolResult.t)
    (m : LanguageModel.t) (prompt : jsstring) (reply : exn + jsstring) :
  run (execute input) tr r ->
  In (TextRequested m prompt reply) tr ->
  exists settled config v,
    In (Ran (js "git diff --cached") settled) tr
    /\ In (ConfigRead (Some config)) tr
    /\ In (ModelCreated m) tr
    /\ ModelConfig.provider config = vendor_name v
    /\ m = LanguageModel.mk v (ModelConfig.apiKey config)
             (ModelConfig.baseURL config)
             (or_else (ModelConfig.model config) (default_model v))
    /\ prompt = buildPrompt (CommandResult.output (command_result settled))
                  (format input) (count input)
                  (language_name (language input)).
Proof.
  intros H Hin. run_paths H; in_cases Hin; injection Hin as <- <- <-;
    exists x3, config, v;
    (split; [in_find|]); (split; [in_find|]); (split; [in_find|]);
    auto.
Qed.

Lemma request_from_diff_and_config_witness :
  run (execute request0) prose_trace (Returned (failed (js "Parse error")))
  /\ In (TextRequested (built_model openai_config OpenAI)
           (buildPrompt (js "+hello") conventional 3 (js "en"))
           (inr (js "Sure, here are some ideas."))) prose_trace
  /\ exists settled config v,
       In (Ran (js "git diff --cached") settled) prose_trace
       /\ In (ConfigRead (Some config)) prose_trace
       /\ In (ModelCreated (built_model openai_config OpenAI)) prose_trace
       /\ ModelConfig.provider config = vendor_name v
       /\ built_model openai_config OpenAI
          = LanguageModel.mk v (ModelConfig.apiKey config)
              (ModelConfig.baseURL config)
              (or_else (ModelConfig.model config) (default_model v))
       /\ buildPrompt (js "+hello") conventional 3 (js "en")
          = buildPrompt (CommandResult.output (command_result settled))
              (format request0) (count request0)
              (language_name (language request0)).
Proof.
  assert (Hrun : run (execute request0) prose_trace
                   (Returned (failed (js "Parse error"))))
    by from_world prose_world.
  assert (Hin : In (TextRequested (built_model openai_config OpenAI)
                      (buildPrompt (js "+hello") conventional 3 (js "en"))
                      (inr (js "Sure, here are some ideas."))) prose_trace)
    by in_find.
  split; [exact Hrun|]. split; [exact Hin|].
  exact (request_from_diff_and_config request0 prose_trace _ _ _ _ Hrun Hin).
Defined.

Ltac quiet_trace :=
  repeat (constructor; [repeat split; reflexivity|]); constructor.

(** X15 -- when the provider answers the request with an error,
    [execute] returns [{success: false, error}] with the error's message
    as it is, the spinner fails, the message is reported, and the
    operator is asked nothing and no commit is run: the request is not
    repeated. *)
Theorem generation_failure
    (input : GenerationRequest) (tr : list obs) (r : outcome ToolResult.t)
    (m : LanguageModel.t) (prompt : jsstring) (err : exn) :
  run (execute input) tr r ->
  In (TextRequested m prompt (inl err)) tr ->
  r = Returned (ToolResult.mk false None (Some (exn_message err)) None None)
  /\ In (SpinnerFailed (js "Failed to generate")) tr
  /\ In (Reported (js "Generation failed: " ++ exn_message err) None) tr
  /\ List.length (filter is_request_obs tr) = 1%nat
  /\ Forall (fun o => is_pick_obs o = false /\ is_confirm_obs o = false
                      /\ is_commit_obs o = false) tr.
Proof.
  intros H Hin. run_paths H; in_cases Hin; injection Hin as <- <- <-.
  split; [reflexivity|]. split; [in_find|]. split; [in_find|].
  split; [reflexivity | quiet_trace].
Qed.

Lemma generation_failure_witness :
  run (execute request0) generation_fails_trace
    (Returned (failed (js "429 Too Many Requests")))
  /\ In (TextRequested (built_model openai_config OpenAI)
           (buildPrompt (js "+hello") conventional 3 (js "en"))
           (inl (Error (js "429 Too Many Requests")))) generation_fails_trace
  /\ In (Reported (js "Generation failed: 429 Too Many Requests") None)
       generation_fails_trace.
Proof.
  assert (Hrun : run (execute request0) generation_fails_trace
                   (Returned (failed (js "429 Too Many Requests"))))
    by from_world generation_fails_world.
  assert (Hin : In (TextRequested (built_model openai_config OpenAI)
                      (buildPrompt (js "+hello") conventional 3 (js "en"))
                      (inl (Error (js "429 Too Many Requests"))))
                  generation_fails_trace)
    by in_find.
  split; [exact Hrun|]. split; [exact Hin|].
  exact (proj1 (proj2 (proj2
           (generation_failure request0 generation_fails_trace _ _ _ _
              Hrun Hin)))).
Defined.

Lemma suffix_here (A : Type) (l : list A) : l = [] ++ l.
Proof. reflexivity. Qed.

Lemma suffix_later (A : Type) (a : A) (x h y : list A) :
  x = h ++ y -> a :: x = (a :: h) ++ y.
Proof. now intros ->. Qed.

(** Finding where a given run of observations stands in a trace. *)
Ltac trace_part :=
  repeat first [ apply suffix_here | apply suffix_later ].

(** X16 -- when the configuration that was read names a provider other
    than openai, anthropic and google, [execute] returns [{success:
    false, error: "Unsupported provider: <name>"}]; right after the
    configuration is read the spinner is started, then it fails, then
    "Generation failed: Unsupported provider: <name>" is reported, and
    that ends the run; no client is built, no text is requested, the
    operator is asked neither to pick nor to confirm, and no commit is
    run. *)
Theorem unsupported_provider_reported
    (input : GenerationRequest) (tr : list obs) (r : outcome ToolResult.t)
    (config : ModelConfig.t) :
  run (execute input) tr r ->
  In (ConfigRead (Some config)) tr ->
  ~ supported (ModelConfig.provider config) ->
  r = Returned (ToolResult.mk false None
                  (Some (js "Unsupported provider: "
                         ++ ModelConfig.provider config)) None None)
  /\ (exists before,
        tr = before
             ++ [ConfigRead (Some config);
                 SpinnerStarted (js "Generating commit messages...");
                 SpinnerFailed (js "Failed to generate");
                 Reported (js "Generation failed: Unsupported provider: "
                           ++ ModelConfig.provider config) None])
  /\ Forall (fun o => is_model_obs o = false /\ is_pick_obs o = false
                      /\ is_confirm_obs o = false
                      /\ is_commit_obs o = false) tr.
Proof.
  intros H Hin Hno. run_paths H; in_cases Hin; injection Hin as <-;
    try (exfalso; apply Hno; now exists v).
  split; [reflexivity|]. split; [eexists; trace_part|].
  quiet_trace.
Qed.

Lemma unsupported_provider_reported_witness :
  run (execute request0) unsupported_trace
    (Returned (failed (js "Unsupported provider: mistral")))
  /\ In (ConfigRead (Some mistral_config)) unsupported_trace
  /\ ~ supported (ModelConfig.provider mistral_config)
  /\ exists before,
       unsupported_trace
       = before
         ++ [ConfigRead (Some mistral_config);
             SpinnerStarted (js "Generating commit messages...");
             SpinnerFailed (js "Failed to generate");
             Reported (js "Generation failed: Unsupported provider: "
                       ++ ModelConfig.provider mistral_config) None].
Proof.
  assert (Hrun : run (execute request0) unsupported_trace
                   (Returned (failed (js "Unsupported provider: mistral"))))
    by from_world unsupported_world.
  assert (Hin : In (ConfigRead (Some mistral_config)) unsupported_trace)
    by in_find.
  assert (Hno : ~ supported (ModelConfig.provider mistral_config))
    by (intros [[] Hv]; discriminate Hv).
  split; [exact Hrun|]. split; [exact Hin|]. split; [exact Hno|].
  exact (proj1 (proj2
           (unsupported_provider_reported request0 unsupported_trace _ _
              Hrun Hin Hno))).
Defined.

(** X17 -- when the reply holds no numbered line, the spinner succeeds
    right after the reply, "Failed to parse commit messages from AI
    response" is reported right after that, and this ends the run, with
    the result [{success: false, error: "Parse error"}]; the operator is
    asked neither to pick nor to confirm and no commit is run.  When the
    reply holds a numbered line, the spinner succeeds right after the
    reply and the operator is asked to pick right after that. *)
Theorem nothing_parsed
    (input : GenerationRequest) (tr : list obs) (r : outcome ToolResult.t)
    (m : LanguageModel.t) (prompt text : jsstring) :
  run (execute input) tr r ->
  In (TextRequested m prompt (inr text)) tr ->
  (parseCommitCandidates text = [] ->
   r = Returned (ToolResult.mk false None (Some (js "Parse error")) None None)
   /\ (exists before,
         tr = before
              ++ [TextRequested m prompt (inr text);
                  SpinnerSucceeded (js "Generated commit messages");
                  Reported
                    (js "Failed to parse commit messages from AI response")
                    None])
   /\ Forall (fun o => is_pick_obs o = false /\ is_confirm_obs o = false
                       /\ is_commit_obs o = false) tr)
  /\ (parseCommitCandidates text <> [] ->
      exists before options index after,
        tr = before
             ++ [TextRequested m prompt (inr text);
                 SpinnerSucceeded (js "Generated commit messages");
                 Picked (js "Select a commit message:") options index]
             ++ after).
Proof.
  intros H Hin. run_paths H; in_cases Hin; injection Hin as <- <- <-;
    first [ apply length_eqb_true in E1 | apply length_eqb_false in E1 ];
    (split; [intros Hnil | intros Hsome]); try contradiction.
  - split; [reflexivity|]. split; [eexists; trace_part|].
    quiet_trace.
  - do 4 eexists; trace_part.
  - do 4 eexists; trace_part.
  - do 4 eexists; trace_part.
  - do 4 eexists; trace_part.
Qed.

Lemma nothing_parsed_witness :
  run (execute request0) prose_trace (Returned (failed (js "Parse error")))
  /\ In (TextRequested (built_model openai_config OpenAI)
           (buildPrompt (js "+hello") conventional 3 (js "en"))
           (inr (js "Sure, here are some ideas."))) prose_trace
  /\ parseCommitCandidates (js "Sure, here are some ideas.") = []
  /\ exists before,
       prose_trace
       = before
         ++ [TextRequested (built_model openai_config OpenAI)
               (buildPrompt (js "+hello") conventional 3 (js "en"))
               (inr (js "Sure, here are some ideas."));
             SpinnerSucceeded (js "Generated commit messages");
             Reported
               (js "Failed to parse commit messages from AI response")
               None].
Proof.
  assert (Hrun : run (execute request0) prose_trace
                   (Returned (failed (js "Parse error"))))
    by from_world prose_world.
  assert (Hin : In (TextRequested (built_model openai_config OpenAI)
                      (buildPrompt (js "+hello") conventional 3 (js "en"))
                      (inr (js "Sure, here are some ideas."))) prose_trace)
    by in_find.
  split; [exact Hrun|]. split; [exact Hin|]. split; [reflexivity|].
  exact (proj1 (proj2 (proj1
           (nothing_parsed request0 prose_trace _ _ _ _ Hrun Hin) eq_refl))).
Defined.

(** X18 -- when the commit command fails, [execute] returns [{success:
    false, error}] with the failure's message as it is and reports
    "Commit failed" with that message, or with "Unknown error" when the
    message is empty. *)
Theorem commit_failure
    (input : GenerationRequest) (tr : list obs) (r : outcome ToolResult.t)
    (cmd message : jsstring) (stdout stderr : option jsstring) :
  run (execute input) tr r ->
  In (Ran cmd (Rejected message stdout stderr)) tr ->
  starts_with (js "git commit") cmd = true ->
  r = Returned (ToolResult.mk false None (Some message) None None)
  /\ In (Reported (js "Commit failed")
           (Some [if truthy message then message else js "Unknown error"]))
       tr.
Proof.
  intros H Hin Hc. run_paths H; in_cases Hin; injection Hin as <- ?; subst;
    try (cbv in Hc; discriminate Hc); try discriminate E4.
  split; [reflexivity | in_find].
Qed.

Lemma commit_failure_witness :
  run (execute request0) commit_fails_trace
    (Returned (failed (js "Command failed: git commit")))
  /\ In (Ran (commit_command (js "feat: a")) hook_failed) commit_fails_trace
  /\ In (Reported (js "Commit failed")
           (Some [js "Command failed: git commit"])) commit_fails_trace.
Proof.
  assert (Hrun : run (execute request0) commit_fails_trace
                   (Returned (failed (js "Command failed: git commit"))))
    by from_world commit_fails_world.
  assert (Hin : In (Ran (commit_command (js "feat: a")) hook_failed)
                  commit_fails_trace)
    by in_find.
  split; [exact Hrun|]. split; [exact Hin|].
  exact (proj2 (commit_failure request0 commit_fails_trace _ _ _ _ _
                  Hrun Hin eq_refl)).
Defined.

Lemma not_commit_check : starts_with (js "git commit") GIT_CHECK = false.
Proof. reflexivity. Qed.

Lemma not_commit_stat : starts_with (js "git commit") GIT_STAT = false.
Proof. reflexivity. Qed.

Lemma not_commit_diff : starts_with (js "git commit") GIT_DIFF = false.
Proof. reflexivity. Qed.

(** X19 -- nothing is retried or repeated within one run: at most one
    text is requested of a model, the operator is asked to pick at most
    once and to confirm at most once, and at most one commit command is
    run. *)
Theorem at_most_once
    (input : GenerationRequest) (tr : list obs) (r : outcome ToolResult.t) :
  run (execute input) tr r ->
  (List.length (filter is_request_obs tr) <= 1)%nat
  /\ (List.length (filter is_pick_obs tr) <= 1)%nat
  /\ (List.length (filter is_confirm_obs tr) <= 1)%nat
  /\ (List.length (filter is_commit_obs tr) <= 1)%nat.
Proof.
  intros H. run_paths H;
    cbn [filter is_request_obs is_pick_obs is_confirm_obs is_commit_obs
         List.length];
    rewrite ?not_commit_check, ?not_commit_stat, ?not_commit_diff,
      ?commit_command_is_commit;
    cbn [List.length]; repeat split; lia.
Qed.

Lemma at_most_once_witness :
  run (execute request0) commit_trace (Returned (committed (js "feat: a")))
  /\ (List.length (filter is_request_obs commit_trace) <= 1)%nat
  /\ (List.length (filter is_commit_obs commit_trace) <= 1)%nat.
Proof.
  assert (Hrun : run (execute request0) commit_trace
                   (Returned (committed (js "feat: a"))))
    by from_world commit_world.
  split; [exact Hrun|].
  destruct (at_most_once request0 commit_trace _ Hrun)
    as (Hreq & _ & _ & Hcommit).
  split; [exact Hreq | exact Hcommit].
Defined.

(** X20 -- the spinner is started at most once and, once started, it is
    ended exactly once, with success or with failure; and whenever the
    operator is asked to pick, the spinner was ended with success
    before. *)
Theorem spinner_settled
    (input : GenerationRequest) (tr : list obs) (r : outcome ToolResult.t) :
  run (execute input) tr r ->
  (List.length (filter is_spinner_start tr) <= 1)%nat
  /\ List.length (filter is_spinner_end tr)
     = List.length (filter is_spinner_start tr)
  /\ (forall before prompt options index after,
        tr = before ++ Picked prompt options index :: after ->
        In (SpinnerStarted (js "Generating commit messages...")) before
        /\ In (SpinnerSucceeded (js "Generated commit messages")) before).
Proof.
  intros H. split; [|split].
  - run_paths H; cbn; lia.
  - run_paths H; reflexivity.
  - intros before prompt options index' after Heq.
    remember (Picked prompt options index') as o eqn:Ho.
    run_paths H; trace_split Heq before; try discriminate Ho;
      split; in_find.
Qed.

Lemma spinner_settled_witness :
  run (execute request0) generation_fails_trace
    (Returned (failed (js "429 Too Many Requests")))
  /\ List.length (filter is_spinner_end generation_fails_trace) = 1%nat
  /\ List.length (filter is_spinner_start generation_fails_trace) = 1%nat.
Proof.
  assert (Hrun : run (execute request0) generation_fails_trace
                   (Returned (failed (js "429 Too Many Requests"))))
    by from_world generation_fails_world.
  split; [exact Hrun|].
  destruct (spinner_settled request0 generation_fails_trace _ Hrun)
    as (_ & Heq & _).
  split; [rewrite Heq|]; reflexivity.
Defined.

(** X21 -- when the repository check fails, [execute] does nothing but
    report it: the check and the report are the whole run, and the result
    is [{success: false, error: "Not a git repository"}]. *)
Theorem not_a_repository
    (input : GenerationRequest) (tr : list obs) (r : outcome ToolResult.t)
    (message : jsstring) (stdout stderr : option jsstring) :
  run (execute input) tr r ->
  In (Ran (js "git rev-parse --is-inside-work-tree")
        (Rejected message stdout stderr)) tr ->
  tr = [Ran (js "git rev-parse --is-inside-work-tree")
          (Rejected message stdout stderr);
        Reported (js "Not a git repository")
          (Some [js "Navigate to a git repository";
                 js "Or run 'git init' to initialize one"])]
  /\ r = Returned (ToolResult.mk false None
                     (Some (js "Not a git repository")) None None).
Proof.
  intros H Hin. run_paths H; in_cases Hin;
    try (cbv in Hin; discriminate Hin);
    injection Hin as ->; try discriminate E.
  split; reflexivity.
Qed.

Lemma not_a_repository_witness :
  run (execute request0) not_repo_trace
    (Returned (failed (js "Not a git repository")))
  /\ In (Ran (js "git rev-parse --is-inside-work-tree") not_repo)
       not_repo_trace
  /\ List.length not_repo_trace = 2%nat.
Proof.
  assert (Hrun : run (execute request0) not_repo_trace
                   (Returned (failed (js "Not a git repository"))))
    by from_world not_repo_world.
  assert (Hin : In (Ran (js "git rev-parse --is-inside-work-tree") not_repo)
                  not_repo_trace)
    by in_find.
  split; [exact Hrun|]. split; [exact Hin|].
  rewrite (proj1 (not_a_repository request0 not_repo_trace _ _ _ _
                    Hrun Hin)).
  reflexivity.
Defined.

(** X22 -- when no model configuration is there, the run is exactly:
    the repository check, the staged summary, the heading "Staged
    changes:" printed, what the summary command wrote printed as it is,
    the staged diff, the configuration read, and the report "No LLM model
    configured" with the hint to run [kly models]; the result is
    [{success: false, error: "No model configured"}].  No spinner is
    started, no client is built and no text is requested. *)
Theorem model_not_configured
    (input : GenerationRequest) (tr : list obs) (r : outcome ToolResult.t) :
  run (execute input) tr r ->
  In (ConfigRead None) tr ->
  (exists check summary diff,
      tr = [Ran (js "git rev-parse --is-inside-work-tree") check;
            Ran (js "git diff --cached --stat") summary;
            Printed (js "Staged changes:");
            Printed (CommandResult.output (command_result summary));
            Ran (js "git diff --cached") diff;
            ConfigRead None;
            Reported (js "No LLM model configured")
              (Some [js "Run 'kly models' to configure a model"])])
  /\ r = Returned (ToolResult.mk false None (Some (js "No model configured"))
                     None None).
Proof.
  intros H Hin. run_paths H; in_cases Hin.
  split; [do 3 eexists|]; reflexivity.
Qed.

Lemma model_not_configured_witness :
  run (execute request0) no_config_trace
    (Returned (failed (js "No model configured")))
  /\ In (ConfigRead None) no_config_trace
  /\ exists check summary diff,
       no_config_trace
       = [Ran (js "git rev-parse --is-inside-work-tree") check;
          Ran (js "git diff --cached --stat") summary;
          Printed (js "Staged changes:");
          Printed (CommandResult.output (command_result summary));
          Ran (js "git diff --cached") diff;
          ConfigRead None;
          Reported (js "No LLM model configured")
            (Some [js "Run 'kly models' to configure a model"])].
Proof.
  assert (Hrun : run (execute request0) no_config_trace
                   (Returned (failed (js "No model configured"))))
    by from_world no_config_world.
  assert (Hin : In (ConfigRead None) no_config_trace) by in_find.
  split; [exact Hrun|]. split; [exact Hin|].
  exact (proj1 (model_not_configured request0 no_config_trace _ Hrun Hin)).
Defined.

Lemma escapeQuotes_single_line s :
  forallb is_dot s = true -> forallb is_dot (escapeQuotes s) = true.
Proof.
  induction s as [|c t IH]; [reflexivity|].
  cbn [forallb]. intros H. apply andb_true_iff in H as [Hc Ht].
  rewrite escapeQuotes_cons, forallb_app, (IH Ht), andb_true_r.
  destruct (needs_escape c) eqn:E.
  - rewrite (escape_unit_special c E). cbn [forallb]. now rewrite Hc.
  - rewrite (escape_unit_plain c E). cbn [forallb]. now rewrite Hc.
Qed.

Lemma picked_candidate (candidates : list jsstring) index chosen :
  nth_error (map candidate_option candidates ++ [cancel_option]) index
  = Some chosen ->
  jseq (SelectOption.value chosen) CANCEL = false ->
  In (SelectOption.value chosen) candidates.
Proof.
  intros Hnth Hne. apply nth_error_In in Hnth.
  apply in_app_or in Hnth as [Hin|[<-|[]]].
  - apply in_map_iff in Hin as (c & <- & Hc). exact Hc.
  - cbv in Hne. discriminate.
Qed.

(** X23 -- every commit command text that [execute] hands to
    [execCommand] is [git commit -m "<escaped>"] for the escaped form of
    a candidate parsed from the model's reply, and the whole text holds no
    line terminator; what the shell then makes of that text is not part
    of this statement. *)
Theorem commit_of_a_candidate
    (input : GenerationRequest) (tr : list obs) (r : outcome ToolResult.t)
    (cmd : jsstring) (settled : exec_outcome) :
  run (execute input) tr r ->
  In (Ran cmd settled) tr ->
  starts_with (js "git commit") cmd = true ->
  (exists m prompt text candidate,
      In (TextRequested m prompt (inr text)) tr
      /\ In candidate (parseCommitCandidates text)
      /\ cmd = js "git commit -m " ++ [DQUOTE] ++ escapeQuotes candidate
               ++ [DQUOTE])
  /\ forallb is_dot cmd = true.
Proof.
  intros H Hin Hc. run_paths H; in_cases Hin; injection Hin as <- _;
    try (cbv in Hc; discriminate Hc);
    pose proof (picked_candidate _ _ _ Hnth E2) as Hcand;
    (split; [do 4 eexists; split; [in_find|]; split; [exact Hcand|];
             reflexivity|]);
    pose proof (candidates_single_line text) as Hall;
    rewrite Forall_forall in Hall; specialize (Hall _ Hcand);
    unfold commit_command;
    rewrite !forallb_app, (escapeQuotes_single_line _ Hall);
    reflexivity.
Qed.

Lemma commit_of_a_candidate_witness :
  run (execute request0) commit_trace (Returned (committed (js "feat: a")))
  /\ In (Ran (commit_command (js "feat: a")) commit_done) commit_trace
  /\ forallb is_dot (commit_command (js "feat: a")) = true.
Proof.
  assert (Hrun : run (execute request0) commit_trace
                   (Returned (committed (js "feat: a"))))
    by from_world commit_world.
  assert (Hin : In (Ran (commit_command (js "feat: a")) commit_done)
                  commit_trace)
    by in_find.
  split; [exact Hrun|]. split; [exact Hin|].
  exact (proj2 (commit_of_a_candidate request0 commit_trace _ _ _
                  Hrun Hin eq_refl)).
Defined.

Lemma or_else_nonempty a b : b <> [] -> or_else a b <> [].
Proof.
  intros Hb. unfold or_else. destruct a as [[|c s]|]; simpl; congruence.
Qed.

(** X24 -- when [createProviderFromConfig] returns a client, it has built
    exactly that one client and done nothing else, the client is of the
    provider the configuration names, and its model name is never the
    empty string. *)
Theorem created_client_named
    (config : ModelConfig.t) (tr : list obs) (m : LanguageModel.t) :
  run (createProviderFromConfig config) tr (Returned m) ->
  tr = [ModelCreated m]
  /\ vendor_name (LanguageModel.vendor m) = ModelConfig.provider config
  /\ LanguageModel.modelId m <> [].
Proof.
  intros H.
  destruct (provider_cases config) as [[v Hv]|Hno].
  - rewrite (createProvider_supported config v Hv) in H.
    destruct H as (x & o & tr' & -> & -> & -> & [= ->]).
    split; [reflexivity|]. split; [exact (eq_sym Hv)|].
    apply or_else_nonempty. destruct v; discriminate.
  - rewrite (createProvider_unsupported config Hno) in H.
    destruct H as [_ H]. discriminate.
Qed.

Lemma created_client_named_witness :
  run (createProviderFromConfig empty_model_config)
    [ModelCreated (built_model empty_model_config OpenAI)]
    (Returned (built_model empty_model_config OpenAI))
  /\ LanguageModel.modelId (built_model empty_model_config OpenAI) <> [].
Proof.
  assert (Hrun : run (createProviderFromConfig empty_model_config)
                   [ModelCreated (built_model empty_model_config OpenAI)]
                   (Returned (built_model empty_model_config OpenAI))).
  { simpl. exists tt. eauto 6. }
  split; [exact Hrun|].
  exact (proj2 (proj2 (created_client_named empty_model_config _ _ Hrun))).
Defined.

Lemma truthy_false_nil s : truthy s = false -> s = [].
Proof. destruct s; [reflexivity | discriminate]. Qed.

(** X25 -- whether [execute] goes on past the staged summary is decided
    by what the summary command wrote alone: when that is not blank,
    whether the command resolved or was rejected, the summary is printed
    as it is, the staged diff is read and the model configuration is
    asked for. *)
Theorem summary_output_decides
    (input : GenerationRequest) (tr : list obs) (r : outcome ToolResult.t)
    (settled : exec_outcome) :
  run (execute input) tr r ->
  In (Ran (js "git diff --cached --stat") settled) tr ->
  trim (CommandResult.output (command_result settled)) <> [] ->
  In (Printed (CommandResult.output (command_result settled))) tr
  /\ (exists diff, In (Ran (js "git diff --cached") diff) tr)
  /\ (exists config, In (ConfigRead config) tr).
Proof.
  intros H Hin Hsome. run_paths H; in_cases Hin;
    try (cbv in Hin; discriminate Hin);
    injection Hin as <-;
    try (apply negb_true_iff, truthy_false_nil in E0; contradiction);
    (split; [in_find|]); split; eexists; in_find.
Qed.

Lemma summary_output_decides_witness :
  run (execute request0) truncated_summary_trace
    (Returned (failed (js "No model configured")))
  /\ CommandResult.success (command_result truncated_summary) = false
  /\ In (Ran (js "git diff --cached --stat") truncated_summary)
       truncated_summary_trace
  /\ exists diff,
       In (Ran (js "git diff --cached") diff) truncated_summary_trace.
Proof.
  assert (Hrun : run (execute request0) truncated_summary_trace
                   (Returned (failed (js "No model configured"))))
    by from_world truncated_summary_world.
  assert (Hin : In (Ran (js "git diff --cached --stat") truncated_summary)
                  truncated_summary_trace)
    by in_find.
  assert (Hsome : trim (CommandResult.output
                          (command_result truncated_summary)) <> [])
    by discriminate.
  split; [exact Hrun|]. split; [reflexivity|]. split; [exact Hin|].
  exact (proj1 (proj2 (summary_output_decides request0
                         truncated_summary_trace _ truncated_summary
                         Hrun Hin Hsome))).
Defined.
